(** * PharmAccess Explorer: the map view of [frontend/src]

    A shallow embedding of [App.tsx] and [components/MapView.tsx]: the token
    guard of [App], the mount effect of [MapView], the style expressions of
    the three layers, the pointer handlers registered on the map, and the
    content built for tooltips and popups. *)

From Stdlib Require Import ZArith QArith Qabs Qround Lqa Lia.
From Stdlib Require Import String Ascii List Permutation DecimalString DecimalPos.
From stdpp Require Import gmap strings list fin_maps.
Import ListNotations.

Local Open Scope string_scope.
Local Open Scope Z_scope.

(** ** JavaScript values held by a feature's property bag *)

Module Js.

Inductive value : Type :=
| Undefined
| Null
| Bool (b : bool)
| Num (n : Z)
| Str (s : string).

(** [Boolean(v)]: the falsy values are [undefined], [null], [false], [0]
    and the empty string. Numbers are the integers, which is what a
    GeoJSON property bag of identifiers and counts carries. *)
Definition truthy (v : value) : bool :=
  match v with
  | Undefined | Null => false
  | Bool b => b
  | Num n => negb (n =? 0)
  | Str s => negb (String.eqb s "")
  end.

(** [String(v)], as a template literal applies it to an interpolated value. *)
Definition toString (v : value) : string :=
  match v with
  | Undefined => "undefined"
  | Null => "null"
  | Bool true => "true"
  | Bool false => "false"
  | Num n => NilZero.string_of_int (Z.to_int n)
  | Str s => s
  end.

(** [a || b] returns the left operand itself when it is truthy. *)
Definition or (a b : value) : value := if truthy a then a else b.

(** [Array.prototype.join]: [null] and [undefined] elements print as the
    empty string, the others through [String]. *)
Definition joinItem (v : value) : string :=
  match v with
  | Undefined | Null => ""
  | _ => toString v
  end.

Fixpoint join (sep : string) (xs : list value) : string :=
  match xs with
  | [] => ""
  | [x] => joinItem x
  | x :: rest => joinItem x ++ sep ++ join sep rest
  end.

(** [props.key]: a missing key reads as [undefined]. *)
Definition get (props : gmap string value) (key : string) : value :=
  default Undefined (props !! key).

End Js.

(** ** Tooltip and popup content (MapView.tsx, both content builders) *)

Definition nl : string := String (ascii_of_nat 10) EmptyString.
Definition dq : string := String (ascii_of_nat 34) EmptyString.

(** [const name = props.name || 'Unknown Pharmacy'] *)
Definition popupName (props : gmap string Js.value) : Js.value :=
  Js.or (Js.get props "name") (Js.Str "Unknown Pharmacy").

(** [const address = props.full_address
      || [props.address, props.city, props.state].filter(Boolean).join(', ')
      || 'Address not available'] *)
Definition popupAddress (props : gmap string Js.value) : Js.value :=
  Js.or
    (Js.or (Js.get props "full_address")
       (Js.Str (Js.join ", "
          (List.filter Js.truthy
             [Js.get props "address"; Js.get props "city"; Js.get props "state"]))))
    (Js.Str "Address not available").

(** The three literal chunks of the template literal, around [${name}] and
    [${address}]. *)
Definition tplHead : string :=
  nl ++ "          <div style=" ++ dq ++ "padding: 8px; min-width: 200px;" ++ dq ++ ">"
  ++ nl ++ "            <strong style=" ++ dq
  ++ "font-size: 14px; display: block; margin-bottom: 4px;" ++ dq ++ ">".

Definition tplMid : string :=
  "</strong>" ++ nl ++ "            <span style=" ++ dq
  ++ "color: #666; font-size: 12px;" ++ dq ++ ">".

Definition tplTail : string :=
  "</span>" ++ nl ++ "          </div>" ++ nl ++ "        ".

Definition template (name address : Js.value) : string :=
  tplHead ++ Js.toString name ++ tplMid ++ Js.toString address ++ tplTail.

(** The hover handler ([mouseenter] on 'unclustered-point') and the click
    handler ([click] on 'unclustered-point') build their content with the
    same two statements. *)
Definition hoverContent (props : gmap string Js.value) : string :=
  template (popupName props) (popupAddress props).

Definition clickContent (props : gmap string Js.value) : string :=
  template (popupName props) (popupAddress props).

(** The two lines of text a reader sees: name, then address. *)
Definition renderedText (props : gmap string Js.value) : string * string :=
  (Js.toString (popupName props), Js.toString (popupAddress props)).

(** *** The fallback chain in the words of the specification *)

Module FallbackSpec.

Definition present (v : Js.value) : bool := Js.truthy v.

Definition nameText (props : gmap string Js.value) : string :=
  if present (Js.get props "name")
  then Js.toString (Js.get props "name")
  else "Unknown Pharmacy".

Fixpoint joined (parts : list string) : string :=
  match parts with
  | [] => ""
  | [p] => p
  | p :: rest => p ++ ", " ++ joined rest
  end.

Definition presentParts (props : gmap string Js.value) : list string :=
  List.map Js.toString
    (List.filter present
       [Js.get props "address"; Js.get props "city"; Js.get props "state"]).

Definition addressText (props : gmap string Js.value) : string :=
  if present (Js.get props "full_address")
  then Js.toString (Js.get props "full_address")
  else match presentParts props with
       | [] => "Address not available"
       | parts => joined parts
       end.

End FallbackSpec.

(** One string occurs inside another, as it stands. *)
Definition occursIn (s t : string) : Prop :=
  exists before after : string, t = before ++ s ++ after.

(** Sample records. *)
Definition mainStreet : gmap string Js.value :=
  <["name" := Js.Null]>
    (<["address" := Js.Str "1 Main St"]>
       (<["city" := Js.Str "Springfield"]>
          (<["state" := Js.Str "OH"]> ∅))).

Definition emptyFields : gmap string Js.value :=
  <["name" := Js.Str ""]>
    (<["full_address" := Js.Str ""]>
       (<["address" := Js.Str ""]>
          (<["city" := Js.Str ""]>
             (<["state" := Js.Str ""]> ∅)))).

Definition markupRecord : gmap string Js.value :=
  <["name" := Js.Str "<img src=x onerror=alert(1)>"]>
    (<["full_address" := Js.Str "<b>1 Main St</b>"]> ∅).

(** ** Geometry and features *)

(** A coordinate is [longitude, latitude]. *)
Definition LngLat : Type := (Q * Q)%type.

(** A feature as a layer or a handler sees it: a point geometry and a
    property bag ([feature.properties || {}] reads a missing bag as empty). *)
Record Feature : Type := mkFeature {
  geometry : LngLat;
  properties : gmap string Js.value
}.

(** ** Style expressions (the [filter] and [paint] entries of the layers) *)

Module Expr.

Inductive value : Type :=
| VNum (q : Q)
| VStr (s : string)
| VBool (b : bool).

(** The fragment of the style expression language the layers are written
    in. Stops are the (input, output) pairs that follow the first output of
    a ['step'] or the input of an ['interpolate']. *)
Inductive expr : Type :=
| Lit (v : value)
| Get (key : string)
| Has (key : string)
| Not (e : expr)
| Zoom
| Step (input : expr) (out0 : value) (stops : list (Q * value))
| InterpolateLinear (input : expr) (stops : list (Q * Q)).

(** ['step']: the output of the last stop whose input is at most [x], the
    first output when [x] is below every stop. *)
Fixpoint stepLookup (x : Q) (cur : value) (stops : list (Q * value)) : value :=
  match stops with
  | [] => cur
  | (s, out) :: rest => if Qle_bool s x then stepLookup x out rest else cur
  end.

(** Linear interpolation between two outputs: [a * (1 - t) + b * t]. *)
Definition lerp (a b t : Q) : Q := (a * (1 - t) + b * t)%Q.

Fixpoint interpolateFrom (x : Q) (lo : Q * Q) (stops : list (Q * Q)) : Q :=
  match stops with
  | [] => snd lo
  | hi :: rest =>
      if Qle_bool (fst hi) x then interpolateFrom x hi rest
      else lerp (snd lo) (snd hi) ((x - fst lo) / (fst hi - fst lo))%Q
  end.

(** ['interpolate', ['linear']]: clamped to the first output at or below
    the first stop and to the last output at or above the last stop. *)
Definition interpolate (x : Q) (stops : list (Q * Q)) : option Q :=
  match stops with
  | [] => None
  | first :: rest =>
      Some (if Qle_bool x (fst first) then snd first
            else interpolateFrom x first rest)
  end.

Definition ofJs (v : Js.value) : option value :=
  match v with
  | Js.Num n => Some (VNum (inject_Z n))
  | Js.Str s => Some (VStr s)
  | Js.Bool b => Some (VBool b)
  | Js.Undefined | Js.Null => None
  end.

(** Evaluation against a feature's properties at a zoom. [None] is an
    evaluation error (a missing property, a non-numeric input). *)
Fixpoint eval (props : gmap string Js.value) (zoom : Q) (e : expr) : option value :=
  match e with
  | Lit v => Some v
  | Get key => props !! key ≫= ofJs
  | Has key => Some (VBool (bool_decide (is_Some (props !! key))))
  | Not e' =>
      match eval props zoom e' with
      | Some (VBool b) => Some (VBool (negb b))
      | _ => None
      end
  | Zoom => Some (VNum zoom)
  | Step input out0 stops =>
      match eval props zoom input with
      | Some (VNum x) => Some (stepLookup x out0 stops)
      | _ => None
      end
  | InterpolateLinear input stops =>
      match eval props zoom input with
      | Some (VNum x) => VNum <$> interpolate x stops
      | _ => None
      end
  end.

End Expr.

(** ** The layers added on ['load'] *)

(** A value of a layer's [layout] object. *)
Inductive LayoutValue : Type :=
| LayoutText (s : string)
| LayoutFonts (fonts : list string)
| LayoutNumber (q : Q).

Record Layer : Type := mkLayer {
  layerId : string;
  layerType : string;
  layerSource : string;
  layerFilter : Expr.expr;
  minzoom : option Q;
  layout : list (string * LayoutValue);
  paint : list (string * Expr.expr)
}.

Definition clustersLayer : Layer := {|
  layerId := "clusters";
  layerType := "circle";
  layerSource := "pharmacies";
  layerFilter := Expr.Has "point_count";
  minzoom := None;
  layout := [];
  paint :=
    [ ("circle-color",
       Expr.Step (Expr.Get "point_count") (Expr.VStr "#51bbd6")
         [ (100%Q, Expr.VStr "#f1f075"); (750%Q, Expr.VStr "#f28cb1") ]);
      ("circle-radius",
       Expr.Step (Expr.Get "point_count") (Expr.VNum 20)
         [ (100%Q, Expr.VNum 30); (750%Q, Expr.VNum 40) ]) ]
|}.

Definition clusterCountLayer : Layer := {|
  layerId := "cluster-count";
  layerType := "symbol";
  layerSource := "pharmacies";
  layerFilter := Expr.Has "point_count";
  minzoom := None;
  layout :=
    [ ("text-field", LayoutText "{point_count_abbreviated}");
      ("text-font", LayoutFonts ["DIN Offc Pro Medium"; "Arial Unicode MS Bold"]);
      ("text-size", LayoutNumber 12) ];
  paint := []
|}.

Definition unclusteredPointLayer : Layer := {|
  layerId := "unclustered-point";
  layerType := "circle";
  layerSource := "pharmacies";
  layerFilter := Expr.Not (Expr.Has "point_count");
  minzoom := Some 10%Q;
  layout := [];
  paint :=
    [ ("circle-color", Expr.Lit (Expr.VStr "#11b4da"));
      ("circle-radius",
       Expr.InterpolateLinear Expr.Zoom [ (10%Q, 4%Q); (15%Q, 8%Q) ]);
      ("circle-stroke-width", Expr.Lit (Expr.VNum 1));
      ("circle-stroke-color", Expr.Lit (Expr.VStr "#fff")) ]
|}.

Fixpoint paintProperty (name : string) (entries : list (string * Expr.expr))
  : option Expr.expr :=
  match entries with
  | [] => None
  | (k, e) :: rest => if String.eqb k name then Some e else paintProperty name rest
  end.

(** A paint property of a layer, evaluated for a property bag at a zoom. *)
Definition evalPaint (l : Layer) (name : string)
    (props : gmap string Js.value) (zoom : Q) : option Expr.value :=
  paintProperty name (paint l) ≫= Expr.eval props zoom.

(** Whether a layer's filter lets a feature through. *)
Definition passesFilter (l : Layer) (f : Feature) : bool :=
  match Expr.eval (properties f) 0 (layerFilter l) with
  | Some (Expr.VBool b) => b
  | _ => false
  end.

(** The style resolver: a cluster is styled from its [point_count], a
    single point from the zoom. *)
Definition clusterProps (pointCount : Z) : gmap string Js.value :=
  {[ "point_count" := Js.Num pointCount ]}.

Definition clusterColor (pointCount : Z) : option Expr.value :=
  evalPaint clustersLayer "circle-color" (clusterProps pointCount) 0.

Definition clusterRadiusPx (pointCount : Z) : option Expr.value :=
  evalPaint clustersLayer "circle-radius" (clusterProps pointCount) 0.

Definition pointColor (zoom : Q) : option Expr.value :=
  evalPaint unclusteredPointLayer "circle-color" ∅ zoom.

Definition pointRadius (zoom : Q) : option Expr.value :=
  evalPaint unclusteredPointLayer "circle-radius" ∅ zoom.

(** The radius of a cluster circle and of a point circle, as numbers. *)
Definition radiusOf (v : option Expr.value) : option Q :=
  match v with
  | Some (Expr.VNum q) => Some q
  | _ => None
  end.

(** ** The 'pharmacies' source and its clusterer *)

(** The options object passed to [addSource('pharmacies', ...)]. *)
Record GeoJSONSourceSpec : Type := mkSourceSpec {
  data : string;
  cluster : bool;
  clusterMaxZoom : Z;
  clusterRadius : Q;
  generateId : bool
}.

Definition pharmaciesSource : GeoJSONSourceSpec := {|
  data := "/data/pharmacies.geojson";
  cluster := true;
  clusterMaxZoom := 12;
  clusterRadius := 50;
  generateId := true
|}.

(** A point of the input feed. *)
Record PointRecord : Type := mkPoint {
  pointId : Z;
  coordinate : LngLat;
  pointProps : gmap string Js.value
}.

Record ClusterAggregate : Type := mkCluster {
  clusterId : Z;
  centroid : LngLat;
  pointCount : Z;
  memberRadius : Q;
  members : list PointRecord
}.

Module Clusterer.
Section Grouping.

(** The projection of two coordinates to a distance in screen pixels at a
    zoom level belongs to the map engine. *)
Variable screenDistance : Z -> LngLat -> LngLat -> Q.
Variable zoom : Z.
Variable radiusPx : Q.

Definition near (a b : PointRecord) : bool :=
  Qle_bool (screenDistance zoom (coordinate a) (coordinate b)) radiusPx
  || Qle_bool (screenDistance zoom (coordinate b) (coordinate a)) radiusPx.

Definition touches (p : PointRecord) (group : list PointRecord) : bool :=
  existsb (near p) group.

(** Adding a point merges every group it touches into one group with it. *)
Definition addPoint (p : PointRecord) (groups : list (list PointRecord))
  : list (list PointRecord) :=
  (p :: concat (List.filter (touches p) groups))
    :: List.filter (fun g => negb (touches p g)) groups.

(** Modelled from the spec: the grouping of the Spatial Clusterer (section
    4.2), which the repository leaves to the map engine: the groups are the
    connected components of the proximity relation "projected screen
    distance at most the cluster radius". *)
Fixpoint components (points : list PointRecord) : list (list PointRecord) :=
  match points with
  | [] => []
  | p :: rest => addPoint p (components rest)
  end.

Definition sumQ (xs : list Q) : Q := fold_right Qplus 0%Q xs.

(** The arithmetic mean of the member coordinates. *)
Definition mean (group : list PointRecord) : LngLat :=
  let n := inject_Z (Z.of_nat (length group)) in
  ((sumQ (List.map (fun p => fst (coordinate p)) group) / n)%Q,
   (sumQ (List.map (fun p => snd (coordinate p)) group) / n)%Q).

Definition isAggregate (group : list PointRecord) : bool :=
  (2 <=? length group)%nat.

Fixpoint aggregatesFrom (next : Z) (groups : list (list PointRecord))
  : list ClusterAggregate :=
  match groups with
  | [] => []
  | g :: rest =>
      {| clusterId := next; centroid := mean g;
         pointCount := Z.of_nat (length g);
         memberRadius := radiusPx; members := g |}
        :: aggregatesFrom (next + 1) rest
  end.

(** A group of one point is emitted as a single, a larger one as an
    aggregate. *)
Definition group (points : list PointRecord)
  : list ClusterAggregate * list PointRecord :=
  let groups := components points in
  (aggregatesFrom 0 (List.filter isAggregate groups),
   concat (List.filter (fun g => negb (isAggregate g)) groups)).

End Grouping.

(** Modelled from the spec: [cluster(points, zoom, maxClusterZoom,
    clusterRadiusPx)] in the words of section 4.2, the clusterer the
    repository configures but does not contain: every point is a single
    when [zoom >= maxClusterZoom], and the points are grouped below. *)
Definition cluster (screenDistance : Z -> LngLat -> LngLat -> Q)
    (points : list PointRecord) (zoom maxClusterZoom : Z) (clusterRadiusPx : Q)
  : list ClusterAggregate * list PointRecord :=
  if maxClusterZoom <=? zoom then ([], points)
  else group screenDistance zoom clusterRadiusPx points.

End Clusterer.

(** The property bag of a cluster feature. *)
Definition aggregateProps (c : ClusterAggregate) : gmap string Js.value :=
  <["cluster" := Js.Bool true]>
    (<["cluster_id" := Js.Num (clusterId c)]>
       (<["point_count" := Js.Num (pointCount c)]> ∅)).

Definition aggregateFeature (c : ClusterAggregate) : Feature :=
  {| geometry := centroid c; properties := aggregateProps c |}.

Definition pointFeature (p : PointRecord) : Feature :=
  {| geometry := coordinate p; properties := pointProps p |}.

(** The zoom levels on which the 'pharmacies' source clusters, as it is
    configured: [cluster: true, clusterMaxZoom: 12, // Cluster up to zoom
    level 12]. *)
Definition clustersAt (spec : GeoJSONSourceSpec) (zoom : Z) : bool :=
  cluster spec && (zoom <=? clusterMaxZoom spec).

(** What the 'pharmacies' source hands to its layers at a zoom level: the
    aggregates and the singles on the levels it clusters on, with
    [clusterRadius] as the radius, and every point as a single on the
    others. *)
Definition sourceOutput (spec : GeoJSONSourceSpec)
    (screenDistance : Z -> LngLat -> LngLat -> Q)
    (points : list PointRecord) (zoom : Z)
  : list ClusterAggregate * list PointRecord :=
  if clustersAt spec zoom
  then Clusterer.group screenDistance zoom (clusterRadius spec) points
  else ([], points).

Definition sourceFeatures (spec : GeoJSONSourceSpec)
    (screenDistance : Z -> LngLat -> LngLat -> Q)
    (points : list PointRecord) (zoom : Z) : list Feature :=
  let out := sourceOutput spec screenDistance points zoom in
  List.map aggregateFeature (fst out) ++ List.map pointFeature (snd out).

(** A flat projection for worked examples: 2^zoom pixels per degree, with
    the distance taken along the axes. *)
Definition flatDistance (zoom : Z) (a b : LngLat) : Q :=
  ((Qabs (fst a - fst b) + Qabs (snd a - snd b)) * inject_Z (2 ^ zoom))%Q.

Definition samplePoint (id : Z) (lng lat : Q) : PointRecord :=
  {| pointId := id; coordinate := (lng, lat); pointProps := ∅ |}.

(** Two pharmacies at the same address and one a degree away. *)
Definition samplePoints : list PointRecord :=
  [ samplePoint 0 (-98#1) (39#1); samplePoint 1 (-98#1) (39#1);
    samplePoint 2 (-97#1) (39#1) ].

(** ** The map instance and the handlers registered on it *)

Inductive ConsoleLevel : Type := LogLine | WarnLine | ErrorLine.

Record PopupOptions : Type := mkPopupOptions {
  closeButton : bool;
  closeOnClick : bool
}.

(** [new mapboxgl.Popup()] *)
Definition defaultPopupOptions : PopupOptions :=
  {| closeButton := true; closeOnClick := true |}.

(** [new mapboxgl.Popup({ closeButton: false, closeOnClick: false })] *)
Definition hoverPopupOptions : PopupOptions :=
  {| closeButton := false; closeOnClick := false |}.

Record Popup : Type := mkPopup {
  popupOptions : PopupOptions;
  lngLat : option LngLat;
  html : option string
}.

Record Camera : Type := mkCamera {
  center : LngLat;
  zoomLevel : Q
}.

(** The calls made on the map and its sources that the properties below
    tell apart. *)
Inductive EngineCall : Type :=
| AddSourceCall (id : string)
| AddLayerCall (id : string)
| ReloadCall (id : string)
| EaseToCall (target : Camera)
| SetConfigPropertyCall (importId configName value : string).

(** The map object. Popups are objects with an identity: [popups] is the
    store of the popup objects created so far and [attached] lists the ones
    currently on the map, oldest first. [easing] is the target of a camera
    animation in flight. *)
Record MapState : Type := mkMap {
  camera : Camera;
  easing : option Camera;
  loaded : bool;
  sources : gmap string GeoJSONSourceSpec;
  calls : list EngineCall;
  layers : list Layer;
  popups : gmap nat Popup;
  nextPopup : nat;
  hoverPopup : option nat;
  attached : list nat;
  cursor : string;
  console : list (ConsoleLevel * string)
}.

(** What the handlers need from the map engine. *)
Record Engine : Type := mkEngine {
  (** the [(err, zoom)] pair [getClusterExpansionZoom] calls back with *)
  expansionZoom : Js.value -> option string * option Q;
  (** ['reload' in pharmaciesSource] *)
  sourceHasReload : bool;
  (** ['setData' in source] *)
  sourceHasSetData : bool;
  (** whether [new mapboxgl.Map] throws *)
  constructorThrows : bool;
  (** whether [setConfigProperty] throws *)
  setConfigThrows : bool
}.

Definition logTo (level : ConsoleLevel) (msg : string) (st : MapState) : MapState :=
  {| camera := camera st; easing := easing st; loaded := loaded st;
     sources := sources st; calls := calls st; layers := layers st;
     popups := popups st; nextPopup := nextPopup st; hoverPopup := hoverPopup st;
     attached := attached st; cursor := cursor st;
     console := console st ++ [(level, msg)] |}.

Definition setCursor (c : string) (st : MapState) : MapState :=
  {| camera := camera st; easing := easing st; loaded := loaded st;
     sources := sources st; calls := calls st; layers := layers st;
     popups := popups st; nextPopup := nextPopup st; hoverPopup := hoverPopup st;
     attached := attached st; cursor := c; console := console st |}.

Definition setPopups (ps : gmap nat Popup) (st : MapState) : MapState :=
  {| camera := camera st; easing := easing st; loaded := loaded st;
     sources := sources st; calls := calls st; layers := layers st;
     popups := ps; nextPopup := nextPopup st; hoverPopup := hoverPopup st;
     attached := attached st; cursor := cursor st; console := console st |}.

Definition setAttached (ids : list nat) (st : MapState) : MapState :=
  {| camera := camera st; easing := easing st; loaded := loaded st;
     sources := sources st; calls := calls st; layers := layers st;
     popups := popups st; nextPopup := nextPopup st; hoverPopup := hoverPopup st;
     attached := ids; cursor := cursor st; console := console st |}.

Definition without (id : nat) (ids : list nat) : list nat :=
  List.filter (fun j => negb (Nat.eqb j id)) ids.

(** [popup.setLngLat(c)], [popup.setHTML(h)] *)
Definition setLngLat (id : nat) (c : LngLat) (st : MapState) : MapState :=
  setPopups
    (alter (fun p => {| popupOptions := popupOptions p; lngLat := Some c; html := html p |})
       id (popups st)) st.

Definition setHTML (id : nat) (h : string) (st : MapState) : MapState :=
  setPopups
    (alter (fun p => {| popupOptions := popupOptions p; lngLat := lngLat p; html := Some h |})
       id (popups st)) st.

(** [popup.remove()] takes the popup off the map; [popup.addTo(map)] takes
    it off first when it is already on a map, then puts it on. *)
Definition removePopup (id : nat) (st : MapState) : MapState :=
  setAttached (without id (attached st)) st.

Definition addTo (id : nat) (st : MapState) : MapState :=
  setAttached (without id (attached st) ++ [id]) st.

(** [new mapboxgl.Popup(options)]: a fresh object, not yet on the map. *)
Definition newPopup (opts : PopupOptions) (st : MapState) : nat * MapState :=
  (nextPopup st,
   {| camera := camera st; easing := easing st; loaded := loaded st;
      sources := sources st; calls := calls st; layers := layers st;
      popups := <[nextPopup st := {| popupOptions := opts; lngLat := None; html := None |}]>
                  (popups st);
      nextPopup := S (nextPopup st); hoverPopup := hoverPopup st;
      attached := attached st; cursor := cursor st; console := console st |}).

(** [map.easeTo(target)] starts an animation towards the target, replacing
    one in flight; the camera itself moves as the animation runs. *)
Definition easeTo (target : Camera) (st : MapState) : MapState :=
  {| camera := camera st; easing := Some target; loaded := loaded st;
     sources := sources st; calls := calls st ++ [EaseToCall target];
     layers := layers st;
     popups := popups st; nextPopup := nextPopup st; hoverPopup := hoverPopup st;
     attached := attached st; cursor := cursor st; console := console st |}.

(** The animation in flight, if any, reaches its target. *)
Definition finishEasing (st : MapState) : MapState :=
  match easing st with
  | None => st
  | Some target =>
      {| camera := target; easing := None; loaded := loaded st;
         sources := sources st; calls := calls st; layers := layers st;
         popups := popups st; nextPopup := nextPopup st; hoverPopup := hoverPopup st;
         attached := attached st; cursor := cursor st; console := console st |}
  end.

(** [new mapboxgl.Map({ ..., center: [-98.5795, 39.8283], zoom: 4, ... })],
    followed by [console.log('Map initialized successfully')]. *)
Definition newMap : MapState :=
  {| camera := {| center := ((-985795 # 10000)%Q, (398283 # 10000)%Q); zoomLevel := 4 |};
     easing := None; loaded := false;
     sources := ∅; calls := []; layers := [];
     popups := ∅; nextPopup := 0%nat; hoverPopup := None;
     attached := []; cursor := "";
     console := [(LogLine, "Map initialized successfully")] |}.

Inductive Event : Type :=
| StyleLoad
| Load
| WebglContextLost
| WebglContextRestored
| MouseEnter (layer : string) (features : option (list Feature))
| MouseLeave (layer : string)
| Click (layer : string) (features : option (list Feature))
| MapError.

(** A call on the map that the engine records. *)
Definition recordCall (c : EngineCall) (st : MapState) : MapState :=
  {| camera := camera st; easing := easing st; loaded := loaded st;
     sources := sources st; calls := calls st ++ [c]; layers := layers st;
     popups := popups st; nextPopup := nextPopup st; hoverPopup := hoverPopup st;
     attached := attached st; cursor := cursor st; console := console st |}.

(** [currentMap.on('style.load', ...)]: the call
    [setConfigProperty('basemap', 'lightPreset', 'dusk')] is made inside a
    [try]; the line logged tells whether it threw. *)
Definition onStyleLoad (eng : Engine) (st : MapState) : MapState :=
  let st1 := recordCall (SetConfigPropertyCall "basemap" "lightPreset" "dusk") st in
  if setConfigThrows eng
  then logTo LogLine "Using default globe settings:" st1
  else logTo LogLine
         "Satellite-streets style with star background and dusk lighting loaded" st1.

(** [currentMap.on('webglcontextlost', ...)] *)
Definition onContextLost (st : MapState) : MapState :=
  logTo WarnLine "WebGL context lost" st.

(** [currentMap.on('webglcontextrestored', ...)] *)
Definition onContextRestored (eng : Engine) (st : MapState) : MapState :=
  let st1 := logTo LogLine "WebGL context restored" st in
  match sources st1 !! "pharmacies" with
  | Some _ =>
      if sourceHasReload eng
      then {| camera := camera st1; easing := easing st1; loaded := loaded st1;
              sources := sources st1; calls := calls st1 ++ [ReloadCall "pharmacies"];
              layers := layers st1; popups := popups st1;
              nextPopup := nextPopup st1; hoverPopup := hoverPopup st1;
              attached := attached st1; cursor := cursor st1;
              console := console st1 |}
      else st1
  | None => st1
  end.

(** [currentMap.on('load', ...)]: the source, the three layers and the one
    popup the hover handlers share. *)
Definition onLoad (eng : Engine) (st : MapState) : MapState :=
  let st1 := logTo LogLine "Loading pharmacy data..." st in
  let st2 :=
    {| camera := camera st1; easing := easing st1; loaded := loaded st1;
       sources := <["pharmacies" := pharmaciesSource]> (sources st1);
       calls := calls st1 ++ [AddSourceCall "pharmacies"]; layers := layers st1; popups := popups st1;
       nextPopup := nextPopup st1; hoverPopup := hoverPopup st1;
       attached := attached st1; cursor := cursor st1; console := console st1 |} in
  let st3 :=
    if sourceHasSetData eng
    then logTo LogLine "Pharmacy source added, loading data..." st2 else st2 in
  let st4 :=
    {| camera := camera st3; easing := easing st3; loaded := loaded st3;
       sources := sources st3;
       calls := calls st3 ++ [AddLayerCall "clusters"; AddLayerCall "cluster-count";
                              AddLayerCall "unclustered-point"];
       layers := layers st3 ++ [clustersLayer; clusterCountLayer; unclusteredPointLayer];
       popups := popups st3; nextPopup := nextPopup st3; hoverPopup := hoverPopup st3;
       attached := attached st3; cursor := cursor st3; console := console st3 |} in
  let '(id, st5) := newPopup hoverPopupOptions st4 in
  let st6 :=
    {| camera := camera st5; easing := easing st5; loaded := true;
       sources := sources st5; calls := calls st5; layers := layers st5;
       popups := popups st5; nextPopup := nextPopup st5; hoverPopup := Some id;
       attached := attached st5; cursor := cursor st5; console := console st5 |} in
  logTo LogLine "Map layers and interactions set up" st6.

(** [currentMap.on('mouseenter', 'unclustered-point', (e) => ...)], the
    tooltip handler. *)
Definition onEnterPoint (features : option (list Feature)) (st : MapState) : MapState :=
  match features with
  | None | Some [] => st
  | Some (feature :: _) =>
      match hoverPopup st with
      | None => st
      | Some popup =>
          addTo popup
            (setHTML popup (hoverContent (properties feature))
               (setLngLat popup (geometry feature) st))
      end
  end.

(** [currentMap.on('mouseleave', 'unclustered-point', ...)] *)
Definition onLeavePoint (st : MapState) : MapState :=
  match hoverPopup st with
  | None => st
  | Some popup => removePopup popup st
  end.

(** [currentMap.on('click', 'clusters', (e) => ...)]. The callback of
    [getClusterExpansionZoom] is run with what the engine resolves. *)
Definition onClickCluster (eng : Engine) (features : option (list Feature))
    (st : MapState) : MapState :=
  match features with
  | None | Some [] => st
  | Some (feature :: _) =>
      let clusterId := Js.get (properties feature) "cluster_id" in
      match expansionZoom eng clusterId with
      | (None, Some zoom) =>
          easeTo {| center := geometry feature; zoomLevel := zoom |} st
      | _ => st
      end
  end.

(** [currentMap.on('click', 'unclustered-point', (e) => ...)] *)
Definition onClickPoint (features : option (list Feature)) (st : MapState) : MapState :=
  match features with
  | None | Some [] => st
  | Some (feature :: _) =>
      let '(popup, st1) := newPopup defaultPopupOptions st in
      addTo popup
        (setHTML popup (clickContent (properties feature))
           (setLngLat popup (geometry feature) st1))
  end.

(** A click on the map closes the popups that were on it and were created
    with [closeOnClick] left on. *)
Definition closesOnClick (st : MapState) (id : nat) : bool :=
  match popups st !! id with
  | Some p => closeOnClick (popupOptions p)
  | None => false
  end.

Definition closeOnMapClick (before : MapState) (st : MapState) : MapState :=
  setAttached
    (List.filter
       (fun id => negb (existsb (Nat.eqb id) (attached before) && closesOnClick before id))
       (attached st)) st.

(** One event, run through the handlers registered for it, in the order
    they were registered. The layer handlers exist once ['load'] has run. *)
Definition handle (eng : Engine) (st : MapState) (ev : Event) : MapState :=
  match ev with
  | StyleLoad => onStyleLoad eng st
  | Load => if loaded st then st else onLoad eng st
  | WebglContextLost => onContextLost st
  | WebglContextRestored => onContextRestored eng st
  | MapError => logTo ErrorLine "Map error:" st
  | MouseEnter layer features =>
      if negb (loaded st) then st
      else if String.eqb layer "unclustered-point"
      then setCursor "pointer" (onEnterPoint features st)
      else if String.eqb layer "clusters" then setCursor "pointer" st
      else st
  | MouseLeave layer =>
      if negb (loaded st) then st
      else if String.eqb layer "unclustered-point"
      then setCursor "" (onLeavePoint st)
      else if String.eqb layer "clusters" then setCursor "" st
      else st
  | Click layer features =>
      let st1 :=
        if negb (loaded st) then st
        else if String.eqb layer "clusters" then onClickCluster eng features st
        else if String.eqb layer "unclustered-point" then onClickPoint features st
        else st in
      closeOnMapClick st st1
  end.

Definition run (eng : Engine) (st : MapState) (events : list Event) : MapState :=
  fold_left (handle eng) events st.

(** A tooltip is a popup made the way the hover handlers' popup is: no
    close button, and not closed by a click on the map. *)
Definition isTooltip (p : Popup) : bool :=
  negb (closeButton (popupOptions p)) && negb (closeOnClick (popupOptions p)).

(** The hover tooltips that are on the map. *)
Definition liveTooltips (st : MapState) : list nat :=
  List.filter
    (fun id => match popups st !! id with
               | Some p => isTooltip p
               | None => false
               end)
    (attached st).

(** What holds of the popups in every state the handlers can reach: a
    popup is on the map at most once, the identities handed out are below
    [nextPopup], and the only tooltip ever made is the handlers' shared
    popup, which exists from ['load'] on. *)
Record wellFormed (st : MapState) : Prop := mkWellFormed {
  wf_nodup : List.NoDup (attached st);
  wf_fresh : forall id : nat, is_Some (popups st !! id) -> (id < nextPopup st)%nat;
  wf_tooltip : forall (id : nat) (p : Popup),
      popups st !! id = Some p -> isTooltip p = true -> hoverPopup st = Some id;
  wf_hover : forall id : nat,
      hoverPopup st = Some id ->
      exists p : Popup, popups st !! id = Some p /\ isTooltip p = true;
  wf_loaded : loaded st = true -> is_Some (hoverPopup st);
  wf_unloaded : loaded st = false -> hoverPopup st = None
}.

(** ** The [MapView] component: its mount effect *)

(** [mapContainer.current] over time (in milliseconds since mount): [None]
    while the ref is null, otherwise the element's [offsetWidth] and
    [offsetHeight]. *)
Definition Surface : Type := nat -> option (Z * Z).

Record MapViewState : Type := mkView {
  mapCurrent : option MapState;
  pendingTimer : option nat;
  timersSet : nat;
  viewConsole : list (ConsoleLevel * string)
}.

Definition unmounted : MapViewState :=
  {| mapCurrent := None; pendingTimer := None; timersSet := 0%nat; viewConsole := [] |}.

(** [function initializeMap()] up to the registration of the handlers. *)
Definition initializeMap (eng : Engine) (container : option (Z * Z))
    (v : MapViewState) : MapViewState :=
  match container, mapCurrent v with
  | Some _, None =>
      if constructorThrows eng
      then {| mapCurrent := None; pendingTimer := pendingTimer v;
              timersSet := timersSet v;
              viewConsole := viewConsole v ++ [(ErrorLine, "Failed to initialize map:")] |}
      else {| mapCurrent := Some newMap; pendingTimer := pendingTimer v;
              timersSet := timersSet v; viewConsole := viewConsole v |}
  | _, _ => v
  end.

Definition retryDelay : nat := 100.

(** The body of [useEffect], run at time [now]. *)
Definition mountEffect (eng : Engine) (surface : Surface) (now : nat)
    (v : MapViewState) : MapViewState :=
  match surface now, mapCurrent v with
  | Some (w, h), None =>
      if (w =? 0) || (h =? 0)
      then {| mapCurrent := mapCurrent v;
              pendingTimer := Some (now + retryDelay)%nat;
              timersSet := S (timersSet v);
              viewConsole := viewConsole v
                ++ [(WarnLine, "Map container has no dimensions, waiting...")] |}
      else initializeMap eng (surface now) v
  | _, _ => v
  end.

(** The callback handed to [setTimeout], run at time [now]. *)
Definition retryCallback (eng : Engine) (surface : Surface) (now : nat)
    (v : MapViewState) : MapViewState :=
  match surface now with
  | Some (w, h) =>
      if (0 <? w) && (0 <? h) then initializeMap eng (surface now) v else v
  | None => v
  end.

(** One millisecond of the event loop: a timer that is due fires, once. *)
Definition tick (eng : Engine) (surface : Surface) (now : nat)
    (v : MapViewState) : MapViewState :=
  match pendingTimer v with
  | Some due =>
      if (due <=? now)%nat
      then retryCallback eng surface now
             {| mapCurrent := mapCurrent v; pendingTimer := None;
                timersSet := timersSet v; viewConsole := viewConsole v |}
      else v
  | None => v
  end.

Fixpoint runLoop (eng : Engine) (surface : Surface) (now steps : nat)
    (v : MapViewState) : MapViewState :=
  match steps with
  | O => v
  | S k => runLoop eng surface (S now) k (tick eng surface now v)
  end.

(** The component [elapsed] milliseconds after it was mounted at time 0. *)
Definition viewAfter (eng : Engine) (surface : Surface) (elapsed : nat) : MapViewState :=
  runLoop eng surface 1 elapsed (mountEffect eng surface 0 unmounted).

Definition initialized (v : MapViewState) : bool :=
  match mapCurrent v with Some _ => true | None => false end.

Definition hasSize (surface : Surface) (t : nat) : bool :=
  match surface t with
  | Some (w, h) => (0 <? w) && (0 <? h)
  | None => false
  end.

(** The component right after a mount on a container without size, and
    once its one timer has fired. *)
Definition waiting : MapViewState :=
  {| mapCurrent := None; pendingTimer := Some retryDelay; timersSet := 1;
     viewConsole := [(WarnLine, "Map container has no dimensions, waiting...")] |}.

Definition retried (eng : Engine) (surface : Surface) : MapViewState :=
  retryCallback eng surface retryDelay
    {| mapCurrent := None; pendingTimer := None; timersSet := 1;
       viewConsole := [(WarnLine, "Map container has no dimensions, waiting...")] |}.

(** ** The [App] component *)

#[local] Unset Elimination Schemes.
Inductive VNode : Type :=
| Element (tag : string) (style : list (string * string)) (children : list VNode)
| Text (s : string)
| MapViewNode (mapboxToken : string).
#[local] Set Elimination Schemes.

(** [!MAPBOX_TOKEN] for a value that is a string or undefined. *)
Definition tokenMissing (token : option string) : bool :=
  match token with
  | None => true
  | Some t => String.eqb t ""
  end.

Definition missingTokenScreen : VNode :=
  Element "div"
    [ ("display", "flex"); ("alignItems", "center"); ("justifyContent", "center");
      ("height", "100vh"); ("flexDirection", "column"); ("gap", "16px") ]
    [ Element "h1" [] [ Text "PharmAccess Explorer" ];
      Element "p" [ ("color", "#d32f2f") ]
        [ Text "Error: VITE_MAPBOX_ACCESS_TOKEN environment variable is not set." ];
      Element "p" [ ("color", "#666"); ("fontSize", "14px") ]
        [ Text "Please create a "; Element "code" [] [ Text ".env" ];
          Text " file with:"; Element "br" [] [];
          Element "code" [] [ Text "VITE_MAPBOX_ACCESS_TOKEN=your_token_here" ] ] ].

Definition explorerScreen (token : string) : VNode :=
  Element "div"
    [ ("display", "flex"); ("flexDirection", "column"); ("height", "100vh");
      ("width", "100vw") ]
    [ Element "header"
        [ ("padding", "16px 24px"); ("backgroundColor", "#1a1a2e");
          ("borderBottom", "1px solid #2d2d44");
          ("boxShadow", "0 2px 4px rgba(0,0,0,0.3)"); ("zIndex", "1000");
          ("flexShrink", "0") ]
        [ Element "h1"
            [ ("margin", "0"); ("fontSize", "24px"); ("fontWeight", "600");
              ("color", "#e0e0e0") ]
            [ Text "PharmAccess Explorer" ];
          Element "p"
            [ ("margin", "4px 0 0 0"); ("fontSize", "14px"); ("color", "#b0b0b0") ]
            [ Text "Mapping pharmacy deserts and supply-chain connectivity across the United States" ] ];
      Element "div"
        [ ("flex", "1"); ("position", "relative"); ("minHeight", "0"); ("width", "100%") ]
        [ MapViewNode token ] ].

(** [function App()] *)
Definition App (token : option string) : VNode :=
  match token with
  | Some t => if tokenMissing token then missingTokenScreen else explorerScreen t
  | None => missingTokenScreen
  end.

(** The [MapView] instances of a tree, by their token. *)
Fixpoint mapViews (n : VNode) : list string :=
  match n with
  | Element _ _ children => flat_map mapViews children
  | Text _ => []
  | MapViewNode t => [t]
  end.

(** The text of a tree, in document order. *)
Fixpoint textContent (n : VNode) : list string :=
  match n with
  | Element _ _ children => flat_map textContent children
  | Text s => [s]
  | MapViewNode _ => []
  end.

Definition rootStyle (n : VNode) : list (string * string) :=
  match n with
  | Element _ style _ => style
  | _ => []
  end.

(** Rendering the application mounts every [MapView] of the tree and runs
    the event loop for [elapsed] milliseconds. *)
Definition renderApp (eng : Engine) (surface : Surface) (token : option string)
    (elapsed : nat) : list MapViewState :=
  List.map (fun _ => viewAfter eng surface elapsed) (mapViews (App token)).

(** ** Worked inputs *)

(** An engine that resolves cluster 7 to zoom 9 and knows no other id. *)
Definition sampleEngine : Engine := {|
  expansionZoom := fun id =>
    match id with
    | Js.Num 7 => (None, Some 9%Q)
    | _ => (Some "No cluster with the specified id.", None)
    end;
  sourceHasReload := true;
  sourceHasSetData := true;
  constructorThrows := false;
  setConfigThrows := false
|}.

Definition sampleCluster : Feature :=
  {| geometry := ((-98)%Q, 39%Q);
     properties :=
       <["cluster" := Js.Bool true]>
         (<["cluster_id" := Js.Num 7]> (<["point_count" := Js.Num 2]> ∅)) |}.

Definition staleCluster : Feature :=
  {| geometry := ((-98)%Q, 39%Q);
     properties :=
       <["cluster" := Js.Bool true]>
         (<["cluster_id" := Js.Num 8]> (<["point_count" := Js.Num 2]> ∅)) |}.

Definition pharmacyA : Feature :=
  {| geometry := ((-98)%Q, 39%Q); properties := mainStreet |}.

Definition pharmacyB : Feature :=
  {| geometry := ((-97)%Q, 40%Q); properties := {[ "name" := Js.Str "Corner Drug" ]} |}.


Definition earlySurface : Surface :=
  fun t => if (t <? 50)%nat then Some (0, 0) else Some (800, 600).

(** The calls made while the context is lost and restored again. *)
Definition recoveryCalls (eng : Engine) (st : MapState) : list EngineCall :=
  skipn (length (calls st))
    (calls (run eng st [WebglContextLost; WebglContextRestored])).

(** ** Which layer draws a feature *)

(** A layer with a [minzoom] is hidden below it
    ([minzoom: 10, // Only show individual points at zoom 10+]). *)
Definition visibleAt (l : Layer) (zoom : Q) : bool :=
  match minzoom l with
  | Some m => Qle_bool m zoom
  | None => true
  end.

(** A circle layer draws a feature when the layer is visible at the zoom
    and its filter lets the feature through. *)
Definition drawnBy (l : Layer) (zoom : Q) (f : Feature) : bool :=
  visibleAt l zoom && passesFilter l f.

(** ** The cleanup of the mount effect *)

(** What the body of [useEffect] returns: nothing on the early return,
    [() => clearTimeout(timer)] when the container has no size, and the
    function that removes the map after a direct initialization. *)
Inductive Cleanup : Type := NoCleanup | ClearRetryTimer | RemoveMap.

Definition effectCleanup (surface : Surface) (now : nat) (v : MapViewState) : Cleanup :=
  match surface now, mapCurrent v with
  | Some (w, h), None => if (w =? 0) || (h =? 0) then ClearRetryTimer else RemoveMap
  | _, _ => NoCleanup
  end.

(** Running a cleanup. [RemoveMap] is
    [if (map.current) { map.current.remove(); map.current = null; }]. *)
Definition runCleanup (c : Cleanup) (v : MapViewState) : MapViewState :=
  match c with
  | NoCleanup => v
  | ClearRetryTimer =>
      {| mapCurrent := mapCurrent v; pendingTimer := None;
         timersSet := timersSet v; viewConsole := viewConsole v |}
  | RemoveMap =>
      {| mapCurrent := None; pendingTimer := pendingTimer v;
         timersSet := timersSet v; viewConsole := viewConsole v |}
  end.

(** The component mounted at time 0 and cleaned up [elapsed] milliseconds
    later (an unmount, or a change of the token). *)
Definition cleanedUpAfter (eng : Engine) (surface : Surface) (elapsed : nat)
  : MapViewState :=
  runCleanup (effectCleanup surface 0 unmounted) (viewAfter eng surface elapsed).

(** More worked inputs. *)
Definition sizedSurface : Surface := fun _ => Some (800, 600).

Definition detachedSurface : Surface := fun _ => None.

Definition throwingEngine : Engine := {|
  expansionZoom := expansionZoom sampleEngine;
  sourceHasReload := true;
  sourceHasSetData := true;
  constructorThrows := true;
  setConfigThrows := false
|}.

(** A map on which nothing has happened since it was made but console
    output and the configuration of the style's light preset. *)
Definition untouched (st : MapState) : Prop :=
  loaded st = false /\ popups st = ∅ /\ attached st = []
  /\ Forall (fun c => c = SetConfigPropertyCall "basemap" "lightPreset" "dusk")
       (calls st)
  /\ layers st = [] /\ sources st = ∅ /\ cursor st = ""
  /\ camera st = camera newMap /\ easing st = None
  /\ hoverPopup st = None /\ nextPopup st = 0%nat.

(** What a pointer event may change on the map besides popups, cursor and
    camera: nothing, but for one [easeTo] call. *)
Definition onlyEases (st st' : MapState) : Prop :=
  sources st' = sources st /\ layers st' = layers st
  /\ console st' = console st /\ loaded st' = loaded st
  /\ (calls st' = calls st
      \/ exists target : Camera, calls st' = (calls st ++ [EaseToCall target])%list).

(** What an event without features leaves alone. *)
Definition samePopupsAndView (st st' : MapState) : Prop :=
  popups st' = popups st /\ nextPopup st' = nextPopup st
  /\ calls st' = calls st /\ camera st' = camera st /\ easing st' = easing st
  /\ forall id : nat, In id (attached st') -> In id (attached st).

(** Every popup on the map is a popup of the store that has been given an
    anchor and its content. *)
Definition wellShown (st : MapState) : Prop :=
  forall id : nat,
    In id (attached st) ->
    exists p : Popup,
      popups st !! id = Some p /\ lngLat p <> None /\ html p <> None.

(** * Properties *)

(** ** Content of tooltips and popups *)

Section Content.

Lemma append_assoc (a b c : string) : (a ++ b) ++ c = a ++ b ++ c.
Proof.
induction a as [|ch a IH]; [reflexivity|].
change (String ch ((a ++ b) ++ c) = String ch (a ++ b ++ c)).
now rewrite IH.
Qed.

Lemma toString_truthy (v : Js.value) :
Js.truthy v = true -> Js.toString v <> "".
Proof.
destruct v as [| |b|n|s]; simpl; try discriminate.
- destruct b; discriminate.
- destruct n as [|p|p]; simpl; try discriminate.
  intros _. unfold NilZero.string_of_uint.
  destruct (Pos.to_uint p); discriminate.
- destruct s; simpl; discriminate.
Qed.

Lemma joinItem_truthy (v : Js.value) :
Js.truthy v = true -> Js.joinItem v = Js.toString v.
Proof. destruct v; simpl; try reflexivity; discriminate. Qed.

Lemma join_truthy (xs : list Js.value) :
Forall (fun v => Js.truthy v = true) xs ->
Js.join ", " xs = FallbackSpec.joined (List.map Js.toString xs).
Proof.
induction 1 as [|x rest Hx Hrest IH]; [reflexivity|].
destruct rest as [|y rest'].
- simpl. now apply joinItem_truthy.
- change (Js.joinItem x ++ ", " ++ Js.join ", " (y :: rest')
          = Js.toString x ++ ", " ++ FallbackSpec.joined (List.map Js.toString (y :: rest'))).
  now rewrite IH, joinItem_truthy.
Qed.

Lemma joined_nonempty (parts : list string) :
parts <> [] -> Forall (fun s => s <> "") parts -> FallbackSpec.joined parts <> "".
Proof.
destruct parts as [|p rest]; [congruence|]. intros _ Hall.
inversion Hall as [|? ? Hp _]; subst.
destruct rest; simpl; [assumption|].
destruct p; [congruence | discriminate].
Qed.

Lemma filter_truthy (xs : list Js.value) :
Forall (fun v => Js.truthy v = true) (List.filter Js.truthy xs).
Proof.
apply List.Forall_forall. intros v Hv.
apply List.filter_In in Hv. tauto.
Qed.

Lemma popupName_text (props : gmap string Js.value) :
Js.toString (popupName props) = FallbackSpec.nameText props.
Proof.
unfold popupName, FallbackSpec.nameText, FallbackSpec.present, Js.or.
now destruct (Js.truthy (Js.get props "name")).
Qed.

Lemma popupAddress_text (props : gmap string Js.value) :
Js.toString (popupAddress props) = FallbackSpec.addressText props.
Proof.
unfold popupAddress, FallbackSpec.addressText, FallbackSpec.presentParts.
change FallbackSpec.present with Js.truthy.
set (parts := List.filter Js.truthy _).
unfold Js.or at 2.
destruct (Js.truthy (Js.get props "full_address")) eqn:Hfull.
- unfold Js.or. now rewrite Hfull.
- pose proof (filter_truthy
    [Js.get props "address"; Js.get props "city"; Js.get props "state"]) as Hall.
  fold parts in Hall.
  rewrite (join_truthy parts Hall).
  destruct parts as [|v rest] eqn:Hparts; [reflexivity|].
  unfold Js.or.
  assert (Hne : FallbackSpec.joined (List.map Js.toString (v :: rest)) <> "").
  { apply joined_nonempty; [discriminate|].
    apply List.Forall_map. revert Hall. apply List.Forall_impl.
    intros a. apply toString_truthy. }
  unfold Js.truthy.
  destruct (String.eqb_spec (FallbackSpec.joined (List.map Js.toString (v :: rest))) "");
    [contradiction | reflexivity].
Qed.

Lemma content_equation (props : gmap string Js.value) :
hoverContent props
= tplHead ++ FallbackSpec.nameText props ++ tplMid
    ++ FallbackSpec.addressText props ++ tplTail
/\ clickContent props = hoverContent props.
Proof.
unfold hoverContent, clickContent, template.
now rewrite popupName_text, popupAddress_text.
Qed.

End Content.

(** C6. The tooltip and the popup show the name property, or "Unknown
    Pharmacy" when there is none, and for the address the full_address
    property, else the present ones among address, city and state joined by
    ", ", else "Address not available". A record with a null name and no
    full_address renders "Unknown Pharmacy" / "1 Main St, Springfield, OH";
    a record whose fields are all empty, or that has no fields, renders
    "Unknown Pharmacy" / "Address not available". *)
Theorem popup_fallback_chain :
  (forall props : gmap string Js.value,
      renderedText props = (FallbackSpec.nameText props, FallbackSpec.addressText props)
      /\ hoverContent props
         = tplHead ++ FallbackSpec.nameText props ++ tplMid
             ++ FallbackSpec.addressText props ++ tplTail
      /\ clickContent props = hoverContent props)
  /\ renderedText mainStreet = ("Unknown Pharmacy", "1 Main St, Springfield, OH")
  /\ renderedText emptyFields = ("Unknown Pharmacy", "Address not available")
  /\ renderedText ∅ = ("Unknown Pharmacy", "Address not available").
Proof.
  split; [|repeat split; vm_compute; reflexivity].
  intros props. destruct (content_equation props) as [Hhover Hclick].
  repeat split; try assumption.
  unfold renderedText. now rewrite popupName_text, popupAddress_text.
Qed.

(** C10. The name and the address go into the HTML of the tooltip and of
    the popup as they are: a name or a full_address that holds markup
    appears verbatim in the string handed to [setHTML]. *)
Theorem popup_content_not_escaped (props : gmap string Js.value) (markup : string) :
  markup <> "" ->
  (Js.get props "name" = Js.Str markup ->
     hoverContent props
     = tplHead ++ markup ++ tplMid ++ FallbackSpec.addressText props ++ tplTail
     /\ occursIn markup (hoverContent props)
     /\ occursIn markup (clickContent props))
  /\ (Js.get props "full_address" = Js.Str markup ->
     hoverContent props
     = tplHead ++ FallbackSpec.nameText props ++ tplMid ++ markup ++ tplTail
     /\ occursIn markup (hoverContent props)
     /\ occursIn markup (clickContent props)).
Proof.
  intros Hne.
  assert (Htruthy : Js.truthy (Js.Str markup) = true).
  { simpl. destruct (String.eqb_spec markup ""); [contradiction | reflexivity]. }
  destruct (content_equation props) as [Hhover Hclick].
  split; intros Hget.
  - assert (Hname : FallbackSpec.nameText props = markup).
    { unfold FallbackSpec.nameText, FallbackSpec.present. now rewrite Hget, Htruthy. }
    rewrite Hclick, Hhover, Hname. split; [reflexivity|].
    split; exists tplHead, (tplMid ++ FallbackSpec.addressText props ++ tplTail);
      reflexivity.
  - assert (Haddr : FallbackSpec.addressText props = markup).
    { unfold FallbackSpec.addressText, FallbackSpec.present. now rewrite Hget, Htruthy. }
    rewrite Hclick, Hhover, Haddr. split; [reflexivity|].
    split; exists (tplHead ++ FallbackSpec.nameText props ++ tplMid), tplTail;
      now rewrite !append_assoc.
Qed.

Lemma popup_content_not_escaped_witness :
  "<img src=x onerror=alert(1)>" <> ""
  /\ occursIn "<img src=x onerror=alert(1)>" (hoverContent markupRecord)
  /\ occursIn "<b>1 Main St</b>" (clickContent markupRecord).
Proof.
  split; [discriminate|].
  destruct (popup_content_not_escaped markupRecord "<img src=x onerror=alert(1)>")
    as [Hname _]; [discriminate|].
  destruct (popup_content_not_escaped markupRecord "<b>1 Main St</b>")
    as [_ Haddr]; [discriminate|].
  split; [apply Hname | apply Haddr]; vm_compute; reflexivity.
Defined.

(** ** Style resolver *)

Section Style.

Lemma Qle_bool_inject (a : Z) (b : Z) :
Qle_bool (inject_Z a) (inject_Z b) = (a <=? b).
Proof. unfold Qle_bool; simpl. now rewrite !Z.mul_1_r. Qed.

Lemma step_two (n : Z) (a b c : Expr.value) :
Expr.stepLookup (inject_Z n) a [ (100%Q, b); (750%Q, c) ]
= if n <? 100 then a else if n <? 750 then b else c.
Proof.
unfold Expr.stepLookup.
change 100%Q with (inject_Z 100). change 750%Q with (inject_Z 750).
rewrite !Qle_bool_inject.
destruct (Z.ltb_spec n 100), (Z.leb_spec 100 n); try lia; [reflexivity|].
destruct (Z.ltb_spec n 750), (Z.leb_spec 750 n); try lia; reflexivity.
Qed.

Lemma clusterColor_step (n : Z) :
clusterColor n
= Some (Expr.stepLookup (inject_Z n) (Expr.VStr "#51bbd6")
          [ (100%Q, Expr.VStr "#f1f075"); (750%Q, Expr.VStr "#f28cb1") ]).
Proof.
unfold clusterColor, evalPaint, clusterProps. simpl.
now rewrite lookup_singleton_eq.
Qed.

Lemma clusterRadius_step (n : Z) :
clusterRadiusPx n
= Some (Expr.stepLookup (inject_Z n) (Expr.VNum 20)
          [ (100%Q, Expr.VNum 30); (750%Q, Expr.VNum 40) ]).
Proof.
unfold clusterRadiusPx, evalPaint, clusterProps. simpl.
now rewrite lookup_singleton_eq.
Qed.

Lemma pointRadius_cases (zoom : Q) :
pointRadius zoom
= Some (Expr.VNum
          (if Qle_bool zoom 10 then 4%Q
           else if Qle_bool 15 zoom then 8%Q
           else Expr.lerp 4 8 ((zoom - 10) / (15 - 10)))).
Proof. reflexivity. Qed.

End Style.

(** C5. The colour of a cluster steps with its point count at 100 and 750
    through three colours, its radius steps through 20, 30 and 40 pixels at
    the same counts; the radius of a single point is the straight line from
    4 pixels at zoom 10 to 8 pixels at zoom 15 (held at 4 below and at 8
    above), and its colour is one constant. *)
Theorem style_resolver_steps_and_interpolation :
  (forall n : Z,
      clusterColor n
      = Some (Expr.VStr (if n <? 100 then "#51bbd6"
                         else if n <? 750 then "#f1f075" else "#f28cb1")))
  /\ (forall n : Z,
      clusterRadiusPx n
      = Some (Expr.VNum (if n <? 100 then 20 else if n <? 750 then 30 else 40)%Q))
  /\ (forall zoom : Q, pointColor zoom = Some (Expr.VStr "#11b4da"))
  /\ (forall zoom : Q, (10 <= zoom <= 15)%Q ->
      exists r : Q, radiusOf (pointRadius zoom) = Some r
                    /\ (r == 4 + (zoom - 10) * ((8 - 4) / (15 - 10)))%Q)
  /\ (forall zoom : Q, (zoom <= 10)%Q -> radiusOf (pointRadius zoom) = Some 4%Q)
  /\ (forall zoom : Q, (15 <= zoom)%Q -> radiusOf (pointRadius zoom) = Some 8%Q).
Proof.
  split; [|split; [|split; [|split; [|split]]]].
  - intros n. rewrite clusterColor_step, step_two.
    now destruct (n <? 100), (n <? 750).
  - intros n. rewrite clusterRadius_step, step_two.
    now destruct (n <? 100), (n <? 750).
  - reflexivity.
  - intros zoom [Hlo Hhi]. rewrite pointRadius_cases. simpl radiusOf.
    eexists; split; [reflexivity|].
    destruct (Qle_bool zoom 10) eqn:H10.
    + apply Qle_bool_iff in H10.
      assert (Hz : (zoom == 10)%Q) by now apply Qle_antisym.
      rewrite Hz. reflexivity.
    + destruct (Qle_bool 15 zoom) eqn:H15.
      * apply Qle_bool_iff in H15.
        assert (Hz : (zoom == 15)%Q) by now apply Qle_antisym.
        rewrite Hz. reflexivity.
      * unfold Expr.lerp. field.
  - intros zoom Hz. rewrite pointRadius_cases. simpl radiusOf.
    apply Qle_bool_iff in Hz. now rewrite Hz.
  - intros zoom Hz. rewrite pointRadius_cases. simpl radiusOf.
    destruct (Qle_bool zoom 10) eqn:H10.
    + apply Qle_bool_iff in H10. exfalso.
      assert (H : (15 <= 10)%Q) by (eapply Qle_trans; eassumption).
      now apply H.
    + apply Qle_bool_iff in Hz. now rewrite Hz.
Qed.

Lemma style_resolver_witness :
  (10 <= 25 # 2 <= 15)%Q
  /\ exists r : Q, radiusOf (pointRadius (25 # 2)) = Some r /\ (r == 6)%Q.
Proof.
  assert (Hrange : (10 <= 25 # 2 <= 15)%Q) by (split; discriminate).
  split; [exact Hrange|].
  destruct style_resolver_steps_and_interpolation as (_ & _ & _ & Hline & _).
  destruct (Hline (25 # 2)%Q Hrange) as (r & Hr & Heq).
  exists r. split; [exact Hr|]. rewrite Heq. reflexivity.
Defined.

(** ** Clustering *)

Section Partition.

Variable screenDistance : Z -> LngLat -> LngLat -> Q.

Lemma concat_split (A : Type) (keep : list A -> bool) (groups : list (list A)) :
  Permutation
    (concat (List.filter keep groups)
       ++ concat (List.filter (fun g => negb (keep g)) groups))
    (concat groups).
Proof.
  induction groups as [|g groups IH]; [constructor|].
  simpl. destruct (keep g); simpl.
  - rewrite <- List.app_assoc. now apply Permutation_app_head.
  - rewrite List.app_assoc.
    rewrite (Permutation_app_comm (concat (List.filter keep groups)) g).
    rewrite <- List.app_assoc. now apply Permutation_app_head.
Qed.

Lemma addPoint_concat (zoom : Z) (r : Q) (p : PointRecord)
    (groups : list (list PointRecord)) :
  Permutation (concat (Clusterer.addPoint screenDistance zoom r p groups))
    (p :: concat groups).
Proof.
  unfold Clusterer.addPoint. simpl. constructor. apply concat_split.
Qed.

Lemma components_concat (zoom : Z) (r : Q) (points : list PointRecord) :
  Permutation (concat (Clusterer.components screenDistance zoom r points)) points.
Proof.
  induction points as [|p rest IH]; [constructor|].
  change (Clusterer.components screenDistance zoom r (p :: rest))
    with (Clusterer.addPoint screenDistance zoom r p
            (Clusterer.components screenDistance zoom r rest)).
  rewrite addPoint_concat. now constructor.
Qed.

Lemma aggregates_members (r : Q) (groups : list (list PointRecord)) :
  forall next : Z,
    flat_map members (Clusterer.aggregatesFrom r next groups) = concat groups.
Proof.
  induction groups as [|g groups IH]; intros next; [reflexivity|].
  simpl. now rewrite IH.
Qed.

Lemma aggregates_sized (r : Q) (groups : list (list PointRecord)) :
  Forall (fun g => Clusterer.isAggregate g = true) groups ->
  forall next : Z,
    Forall (fun c => (2 <= length (members c))%nat
                     /\ pointCount c = Z.of_nat (length (members c))
                     /\ centroid c = Clusterer.mean (members c))
      (Clusterer.aggregatesFrom r next groups).
Proof.
  induction 1 as [|g groups Hg _ IH]; intros next; simpl; constructor.
  - simpl. unfold Clusterer.isAggregate in Hg.
    apply Nat.leb_le in Hg. auto.
  - apply IH.
Qed.

Lemma group_partition (points : list PointRecord) (zoom : Z) (r : Q) :
  let out := Clusterer.group screenDistance zoom r points in
  Permutation points (flat_map members (fst out) ++ snd out).
Proof.
  unfold Clusterer.group. simpl.
  rewrite aggregates_members, concat_split.
  symmetry. apply components_concat.
Qed.

Lemma group_sized (points : list PointRecord) (zoom : Z) (r : Q) :
  Forall (fun c => (2 <= length (members c))%nat
                   /\ pointCount c = Z.of_nat (length (members c))
                   /\ centroid c = Clusterer.mean (members c))
    (fst (Clusterer.group screenDistance zoom r points)).
Proof.
  unfold Clusterer.group. simpl.
  apply aggregates_sized. apply List.Forall_forall. intros g Hg.
  apply List.filter_In in Hg. tauto.
Qed.

(** The groups are closed under the proximity relation: two points of the
    input within the radius of each other are in one group. *)
Lemma near_sym (zoom : Z) (r : Q) (a b : PointRecord) :
  Clusterer.near screenDistance zoom r a b = Clusterer.near screenDistance zoom r b a.
Proof. unfold Clusterer.near. apply orb_comm. Qed.

Lemma in_some_group (zoom : Z) (r : Q) (points : list PointRecord) (p : PointRecord) :
  In p points ->
  exists g, In g (Clusterer.components screenDistance zoom r points) /\ In p g.
Proof.
  intros Hin.
  apply (Permutation_in p (Permutation_sym (components_concat zoom r points))) in Hin.
  apply List.in_concat in Hin. destruct Hin as (g & Hg & Hp). eauto.
Qed.

Lemma addPoint_keeps_together (zoom : Z) (r : Q) (p a b : PointRecord)
    (groups : list (list PointRecord)) (g : list PointRecord) :
  In g groups -> In a g -> In b g ->
  exists g', In g' (Clusterer.addPoint screenDistance zoom r p groups)
             /\ In a g' /\ In b g'.
Proof.
  intros Hg Ha Hb. unfold Clusterer.addPoint.
  destruct (Clusterer.touches screenDistance zoom r p g) eqn:Htouch.
  - eexists. split; [left; reflexivity|].
    split; right; apply List.in_concat; exists g;
      (split; [apply List.filter_In; auto | assumption]).
  - exists g. split; [|auto].
    right. apply List.filter_In. split; [assumption | now rewrite Htouch].
Qed.

Lemma addPoint_joins (zoom : Z) (r : Q) (p b : PointRecord)
    (groups : list (list PointRecord)) (g : list PointRecord) :
  In g groups -> In b g -> Clusterer.near screenDistance zoom r p b = true ->
  In b (concat (List.filter (Clusterer.touches screenDistance zoom r p) groups)).
Proof.
  intros Hg Hb Hnear. apply List.in_concat. exists g. split; [|assumption].
  apply List.filter_In. split; [assumption|].
  unfold Clusterer.touches. apply List.existsb_exists. eauto.
Qed.

Lemma near_points_share_a_group (zoom : Z) (r : Q) (points : list PointRecord) :
  forall a b : PointRecord,
    In a points -> In b points ->
    Clusterer.near screenDistance zoom r a b = true ->
    exists g, In g (Clusterer.components screenDistance zoom r points)
              /\ In a g /\ In b g.
Proof.
  induction points as [|p rest IH]; intros a b Ha Hb Hnear; [destruct Ha|].
  change (Clusterer.components screenDistance zoom r (p :: rest))
    with (Clusterer.addPoint screenDistance zoom r p
            (Clusterer.components screenDistance zoom r rest)).
  destruct Ha as [<-|Ha], Hb as [<-|Hb].
  - eexists. split; [left; reflexivity|]. split; now left.
  - destruct (in_some_group zoom r rest b Hb) as (g & Hg & Hbg).
    eexists. split; [left; reflexivity|]. split; [now left|].
    right. now apply (addPoint_joins zoom r p b _ g).
  - destruct (in_some_group zoom r rest a Ha) as (g & Hg & Hag).
    rewrite near_sym in Hnear.
    eexists. split; [left; reflexivity|]. split; [|now left].
    right. now apply (addPoint_joins zoom r p a _ g).
  - destruct (IH a b Ha Hb Hnear) as (g & Hg & Hag & Hbg).
    now apply (addPoint_keeps_together zoom r p a b _ g).
Qed.

End Partition.

Lemma filters_complementary (f : Feature) :
  passesFilter clustersLayer f = negb (passesFilter unclusteredPointLayer f).
Proof.
  unfold passesFilter. simpl.
  now destruct (bool_decide (is_Some (properties f !! "point_count"))).
Qed.

Lemma aggregate_on_clusters_layer (c : ClusterAggregate) :
  passesFilter clustersLayer (aggregateFeature c) = true.
Proof.
  unfold passesFilter, aggregateFeature, aggregateProps. simpl.
  apply bool_decide_eq_true. exists (Js.Num (pointCount c)).
  now simplify_map_eq.
Qed.

Lemma point_on_unclustered_layer (p : PointRecord) :
  pointProps p !! "point_count" = None ->
  passesFilter unclusteredPointLayer (pointFeature p) = true.
Proof.
  intros Hnone. unfold passesFilter, pointFeature. simpl. rewrite Hnone.
  reflexivity.
Qed.

(** C2. Whatever the points and the zoom level, the clusterer's output is a
    partition of the points, for the source as it is configured and for the
    clusterer in the words of the specification alike: the members of the
    aggregates together with the singles are the input points, each as often
    as it was given, so no point is dropped and none appears twice. An
    aggregate has at least two members, and every feature the source hands
    on is drawn either by the cluster layer or by the layer of unclustered
    points, never by both. *)
Theorem clusterer_output_is_a_partition
    (spec : GeoJSONSourceSpec) (screenDistance : Z -> LngLat -> LngLat -> Q)
    (points : list PointRecord) (zoom : Z) :
  let out := sourceOutput spec screenDistance points zoom in
  let byTheSpec :=
    Clusterer.cluster screenDistance points zoom
      (clusterMaxZoom spec) (clusterRadius spec) in
  Permutation points (flat_map members (fst out) ++ snd out)
  /\ Permutation points (flat_map members (fst byTheSpec) ++ snd byTheSpec)
  /\ Forall (fun c => (2 <= length (members c))%nat
                      /\ pointCount c = Z.of_nat (length (members c)))
       (fst out)
  /\ Forall (fun f => xorb (passesFilter clustersLayer f)
                          (passesFilter unclusteredPointLayer f) = true)
       (sourceFeatures spec screenDistance points zoom).
Proof.
  unfold sourceOutput, Clusterer.cluster. split; [|split; [|split]].
  - destruct (clustersAt spec zoom); [apply group_partition | reflexivity].
  - destruct (clusterMaxZoom spec <=? zoom); [reflexivity | apply group_partition].
  - destruct (clustersAt spec zoom); [|constructor].
    eapply List.Forall_impl; [|apply group_sized]. simpl. tauto.
  - apply List.Forall_forall. intros f _. rewrite filters_complementary.
    now destruct (passesFilter unclusteredPointLayer f).
Qed.

(** The configured source and the clusterer of the specification part
    ways only on the level [clusterMaxZoom] itself. *)
Lemma source_follows_the_spec_off_the_threshold
    (spec : GeoJSONSourceSpec) (screenDistance : Z -> LngLat -> LngLat -> Q)
    (points : list PointRecord) (zoom : Z) :
  cluster spec = true -> zoom <> clusterMaxZoom spec ->
  sourceOutput spec screenDistance points zoom
  = Clusterer.cluster screenDistance points zoom
      (clusterMaxZoom spec) (clusterRadius spec).
Proof.
  intros Hon Hne. unfold sourceOutput, clustersAt, Clusterer.cluster.
  rewrite Hon. simpl.
  destruct (Z.leb_spec zoom (clusterMaxZoom spec)),
    (Z.leb_spec (clusterMaxZoom spec) zoom); try reflexivity; lia.
Qed.

Lemma source_and_spec_at_the_threshold :
  Clusterer.cluster flatDistance samplePoints 12 12 50 = ([], samplePoints)
  /\ List.map pointCount (fst (sourceOutput pharmaciesSource flatDistance samplePoints 12))
     = [2].
Proof. split; vm_compute; reflexivity. Qed.

(** C1 as the claim states it fails at zoom level 12: the source clusters
    up to and including [clusterMaxZoom], so two pharmacies at one address
    still form an aggregate there. *)
Lemma singles_at_max_zoom_counterexample :
  ~ (forall (screenDistance : Z -> LngLat -> LngLat -> Q)
            (points : list PointRecord) (zoom : Z),
        clusterMaxZoom pharmaciesSource <= zoom ->
        sourceOutput pharmaciesSource screenDistance points zoom = ([], points)).
Proof.
  intros Hclaim.
  specialize (Hclaim flatDistance samplePoints 12 ltac:(simpl; lia)).
  vm_compute in Hclaim. discriminate Hclaim.
Qed.

(** C1, amended. On every zoom level above [clusterMaxZoom] (12), that is
    from level 13 on, the clusterer returns every point as a single and no
    aggregate. *)
Theorem singles_above_max_zoom
    (screenDistance : Z -> LngLat -> LngLat -> Q)
    (points : list PointRecord) (zoom : Z) :
  clusterMaxZoom pharmaciesSource < zoom ->
  sourceOutput pharmaciesSource screenDistance points zoom = ([], points)
  /\ sourceFeatures pharmaciesSource screenDistance points zoom
     = List.map pointFeature points.
Proof.
  intros Hzoom. unfold sourceFeatures, sourceOutput, clustersAt.
  simpl cluster. simpl clusterMaxZoom in *.
  destruct (Z.leb_spec zoom 12) as [Hle|_]; [lia|].
  split; reflexivity.
Qed.

Lemma singles_above_max_zoom_witness :
  clusterMaxZoom pharmaciesSource < 13
  /\ sourceOutput pharmaciesSource flatDistance samplePoints 13 = ([], samplePoints).
Proof.
  assert (H : clusterMaxZoom pharmaciesSource < 13) by (simpl; lia).
  split; [exact H|].
  exact (proj1 (singles_above_max_zoom flatDistance samplePoints 13 H)).
Defined.

(** ** The token guard of [App] *)

(** C9. Without the token (undefined or empty) [App] renders the
    full-height message that names the missing variable, the tree holds no
    [MapView], so no map is ever constructed, and however long the event
    loop runs nothing is mounted or retried. *)
Theorem missing_token_blocks_the_map
    (eng : Engine) (surface : Surface) (token : option string) (elapsed : nat) :
  tokenMissing token = true ->
  App token = missingTokenScreen
  /\ mapViews (App token) = []
  /\ renderApp eng surface token elapsed = []
  /\ In ("height", "100vh") (rootStyle (App token))
  /\ In "Error: VITE_MAPBOX_ACCESS_TOKEN environment variable is not set."
       (textContent (App token)).
Proof.
  intros Hmissing.
  assert (Happ : App token = missingTokenScreen).
  { unfold App. destruct token as [t|]; [now rewrite Hmissing | reflexivity]. }
  unfold renderApp. rewrite Happ. simpl. intuition.
Qed.

Lemma missing_token_witness :
  tokenMissing None = true
  /\ mapViews (App None) = []
  /\ renderApp sampleEngine earlySurface None 500 = [].
Proof.
  assert (H : tokenMissing None = true) by reflexivity.
  split; [exact H|].
  destruct (missing_token_blocks_the_map sampleEngine earlySurface None 500 H)
    as (_ & Hviews & Hrender & _).
  split; assumption.
Defined.

Lemma token_present_mounts_the_map (t : string) :
  tokenMissing (Some t) = false -> mapViews (App (Some t)) = [t].
Proof. intros H. unfold App. now rewrite H. Qed.

(** ** Loss and restoration of the WebGL context *)

(** C8 as the claim states it fails: once the map is loaded, losing and
    regaining the context makes one call, the reload of the source; no layer
    is added again. *)
Lemma context_recovery_counterexample :
  ~ (forall (eng : Engine) (st : MapState),
        loaded st = true ->
        Forall (fun l => In (AddLayerCall (layerId l)) (recoveryCalls eng st))
          (layers st)).
Proof.
  intros Hclaim.
  pose proof (Hclaim sampleEngine (run sampleEngine newMap [Load]) eq_refl)
    as Hlayers.
  vm_compute in Hlayers.
  inversion Hlayers as [|l ls Hfirst _]; subst.
  destruct Hfirst as [Habs | []]. discriminate Habs.
Qed.

(** C8, amended. When the context is lost the handler writes one warning
    to the console and changes nothing else. When it is restored the handler
    writes one log line and reloads the 'pharmacies' source if that source
    exists and has a [reload] method. The source and the layers are not
    added again and are left as they were, and nothing is shown to the
    user: no popup is opened or moved. *)
Theorem context_recovery_logs_and_reloads (eng : Engine) (st : MapState) :
  handle eng st WebglContextLost = logTo WarnLine "WebGL context lost" st
  /\ let st' := run eng st [WebglContextLost; WebglContextRestored] in
     console st'
     = (console st ++ [(WarnLine, "WebGL context lost");
                       (LogLine, "WebGL context restored")])%list
     /\ recoveryCalls eng st
        = (if bool_decide (is_Some (sources st !! "pharmacies")) && sourceHasReload eng
           then [ReloadCall "pharmacies"] else [])
     /\ layers st' = layers st
     /\ sources st' = sources st
     /\ popups st' = popups st
     /\ attached st' = attached st
     /\ camera st' = camera st
     /\ easing st' = easing st.
Proof.
  split; [reflexivity|].
  unfold recoveryCalls, run. simpl fold_left.
  unfold onContextRestored, onContextLost. simpl sources.
  destruct (sources st !! "pharmacies") as [src|] eqn:Hsrc; simpl bool_decide.
  - destruct (sourceHasReload eng); simpl;
      rewrite <- ?List.app_assoc; simpl;
      repeat split; try reflexivity.
    + now rewrite List.skipn_app, List.skipn_all, Nat.sub_diag.
    + rewrite <- (List.app_nil_r (calls st)) at 2.
      now rewrite List.skipn_app, List.skipn_all, Nat.sub_diag.
  - simpl; rewrite <- ?List.app_assoc; simpl; repeat split; try reflexivity.
    now apply List.skipn_all.
Qed.

(** ** Click on a cluster *)

(** C3. A click on a cluster whose expansion zoom resolves starts one
    [easeTo] animation towards the cluster's coordinate at that zoom: the
    camera is not moved at once, and it is at the target when the animation
    has run. When the resolution reports an error (a stale id) or yields no
    zoom, the handler leaves the map as it was: no line on the console, no
    popup, no change of the view. *)
Theorem cluster_click_eases_or_does_nothing
    (eng : Engine) (st : MapState) (feature : Feature) (rest : list Feature) :
  loaded st = true ->
  let clusterId := Js.get (properties feature) "cluster_id" in
  let event := Click "clusters" (Some (feature :: rest)) in
  (forall zoom : Q,
      expansionZoom eng clusterId = (None, Some zoom) ->
      let target := {| center := geometry feature; zoomLevel := zoom |} in
      onClickCluster eng (Some (feature :: rest)) st = easeTo target st
      /\ easing (handle eng st event) = Some target
      /\ camera (handle eng st event) = camera st
      /\ calls (handle eng st event) = (calls st ++ [EaseToCall target])%list
      /\ camera (finishEasing (handle eng st event)) = target
      /\ console (handle eng st event) = console st)
  /\ (forall (err : option string) (zoom : option Q),
      expansionZoom eng clusterId = (err, zoom) ->
      err <> None \/ zoom = None ->
      onClickCluster eng (Some (feature :: rest)) st = st
      /\ camera (handle eng st event) = camera st
      /\ easing (handle eng st event) = easing st
      /\ calls (handle eng st event) = calls st
      /\ console (handle eng st event) = console st
      /\ popups (handle eng st event) = popups st
      /\ cursor (handle eng st event) = cursor st).
Proof.
  intros Hloaded clusterId event. unfold event, handle. rewrite Hloaded. simpl negb.
  cbv iota. simpl String.eqb. unfold onClickCluster. fold clusterId.
  split.
  - intros zoom Hzoom. rewrite Hzoom.
    repeat split; reflexivity.
  - intros err zoom Hres Hfail. rewrite Hres.
    destruct err as [e|]; [repeat split; reflexivity|].
    destruct zoom as [z|]; [|repeat split; reflexivity].
    destruct Hfail; congruence.
Qed.

Lemma cluster_click_witness :
  loaded (run sampleEngine newMap [Load]) = true
  /\ easing (handle sampleEngine (run sampleEngine newMap [Load])
              (Click "clusters" (Some [sampleCluster])))
     = Some {| center := geometry sampleCluster; zoomLevel := 9 |}
  /\ onClickCluster sampleEngine (Some [staleCluster]) (run sampleEngine newMap [Load])
     = run sampleEngine newMap [Load].
Proof.
  assert (Hloaded : loaded (run sampleEngine newMap [Load]) = true) by reflexivity.
  split; [exact Hloaded|]. split.
  - destruct (cluster_click_eases_or_does_nothing sampleEngine
                (run sampleEngine newMap [Load]) sampleCluster [] Hloaded)
      as [Hok _].
    apply (Hok 9%Q). vm_compute. reflexivity.
  - destruct (cluster_click_eases_or_does_nothing sampleEngine
                (run sampleEngine newMap [Load]) staleCluster [] Hloaded)
      as [_ Hfail].
    apply (Hfail (Some "No cluster with the specified id.") None).
    + vm_compute. reflexivity.
    + left. discriminate.
Defined.

(** ** The retry of [MapView] when its container has no size *)

Section Retry.

Variable eng : Engine.
Variable surface : Surface.

Lemma runLoop_idle (steps : nat) :
  forall (now : nat) (v : MapViewState),
    pendingTimer v = None -> runLoop eng surface now steps v = v.
Proof.
  induction steps as [|k IH]; intros now v Hnone; simpl; [reflexivity|].
  unfold tick. rewrite Hnone. now apply IH.
Qed.

Lemma runLoop_waiting (steps : nat) :
  forall (now due : nat) (v : MapViewState),
    pendingTimer v = Some due -> (now + steps <= due)%nat ->
    runLoop eng surface now steps v = v.
Proof.
  induction steps as [|k IH]; intros now due v Hdue Hle; simpl; [reflexivity|].
  unfold tick. rewrite Hdue.
  destruct (Nat.leb_spec due now) as [Hfire|_]; [lia|].
  apply (IH (S now) due); [assumption | lia].
Qed.

Lemma runLoop_split (a b : nat) :
  forall (now : nat) (v : MapViewState),
    runLoop eng surface now (a + b) v
    = runLoop eng surface (now + a) b (runLoop eng surface now a v).
Proof.
  induction a as [|a IH]; intros now v; simpl.
  - now rewrite Nat.add_0_r.
  - rewrite IH. now rewrite Nat.add_succ_r.
Qed.

Lemma retried_facts :
  pendingTimer (retried eng surface) = None
  /\ timersSet (retried eng surface) = 1%nat
  /\ initialized (retried eng surface) = hasSize surface retryDelay && negb (constructorThrows eng).
Proof.
  unfold retried, retryCallback, hasSize, initializeMap.
  destruct (surface retryDelay) as [[w h]|]; simpl; [|auto].
  destruct ((0 <? w) && (0 <? h)); simpl; [|auto].
  destruct (constructorThrows eng); simpl; auto.
Qed.


Lemma mount_without_size (w h : Z) :
  surface 0%nat = Some (w, h) -> w = 0 \/ h = 0 ->
  mountEffect eng surface 0 unmounted = waiting.
Proof.
  intros Hsurface Hzero. unfold mountEffect. rewrite Hsurface. simpl.
  assert (Hz : (w =? 0) || (h =? 0) = true).
  { destruct Hzero; subst; simpl; [reflexivity | apply orb_true_r]. }
  now rewrite Hz.
Qed.

Lemma view_while_waiting (w h : Z) (elapsed : nat) :
  surface 0%nat = Some (w, h) -> w = 0 \/ h = 0 ->
  (elapsed < retryDelay)%nat ->
  viewAfter eng surface elapsed = waiting.
Proof.
  intros Hsurface Hzero Hbefore. unfold viewAfter.
  rewrite (mount_without_size w h Hsurface Hzero).
  apply (runLoop_waiting elapsed 1 retryDelay); [reflexivity | lia].
Qed.

Lemma view_after_retry (w h : Z) (elapsed : nat) :
  surface 0%nat = Some (w, h) -> w = 0 \/ h = 0 ->
  (retryDelay <= elapsed)%nat ->
  viewAfter eng surface elapsed = retried eng surface.
Proof.
  intros Hsurface Hzero Hafter. unfold viewAfter.
  rewrite (mount_without_size w h Hsurface Hzero).
  replace elapsed with (99 + S (elapsed - retryDelay))%nat
    by (unfold retryDelay in *; lia).
  rewrite runLoop_split.
  rewrite (runLoop_waiting 99 1 retryDelay waiting eq_refl)
    by (unfold retryDelay; lia).
  change (1 + 99)%nat with retryDelay.
  change (runLoop eng surface retryDelay (S (elapsed - retryDelay)) waiting)
    with (runLoop eng surface (S retryDelay) (elapsed - retryDelay)
            (tick eng surface retryDelay waiting)).
  change (tick eng surface retryDelay waiting) with (retried eng surface).
  apply runLoop_idle. apply retried_facts.
Qed.

End Retry.




(** ** Hover tooltips *)

Section Tooltip.

Variable eng : Engine.

Lemma without_nodup (id : nat) (ids : list nat) :
  List.NoDup ids -> List.NoDup (without id ids).
Proof. apply List.NoDup_filter. Qed.

Lemma without_absent (id : nat) (ids : list nat) : ~ In id (without id ids).
Proof.
  unfold without. intros Hin. apply List.filter_In in Hin.
  destruct Hin as [_ Hne]. now rewrite Nat.eqb_refl in Hne.
Qed.

Lemma put_on_nodup (id : nat) (ids : list nat) :
  List.NoDup ids -> List.NoDup (without id ids ++ [id]).
Proof.
  intros Hnodup. apply List.NoDup_app.
  - now apply without_nodup.
  - constructor; [intros [] | constructor].
  - intros x Hx [Heq | []]. subst x. now apply without_absent in Hx.
Qed.

Lemma wf_frame (st st' : MapState) :
  attached st' = attached st -> popups st' = popups st ->
  nextPopup st' = nextPopup st -> hoverPopup st' = hoverPopup st ->
  loaded st' = loaded st ->
  wellFormed st -> wellFormed st'.
Proof.
  intros Ha Hp Hn Hh Hl [H1 H2 H3 H4 H5 H6].
  constructor; rewrite ?Ha, ?Hp, ?Hn, ?Hh, ?Hl; assumption.
Qed.

Lemma wf_setAttached (st : MapState) (ids : list nat) :
  List.NoDup ids -> wellFormed st -> wellFormed (setAttached ids st).
Proof. intros Hids [H1 H2 H3 H4 H5 H6]. constructor; simpl; assumption. Qed.

Lemma wf_alter (st : MapState) (id : nat) (f : Popup -> Popup) :
  (forall p, popupOptions (f p) = popupOptions p) ->
  wellFormed st -> wellFormed (setPopups (alter f id (popups st)) st).
Proof.
  intros Hopts [H1 H2 H3 H4 H5 H6]. constructor; simpl; try assumption.
  - intros j Hj. apply H2. now rewrite lookup_alter_is_Some in Hj.
  - intros j p Hj Htip. rewrite lookup_alter in Hj.
    destruct (decide (id = j)) as [->|Hne]; [|now apply (H3 j p)].
    destruct (popups st !! j) as [q|] eqn:Hq; [|discriminate].
    simpl in Hj. injection Hj as <-. apply (H3 j q Hq).
    unfold isTooltip in *. now rewrite <- Hopts.
  - intros j Hj. destruct (H4 j Hj) as (p & Hp & Htip).
    rewrite lookup_alter. destruct (decide (id = j)) as [->|Hne]; [|eauto].
    rewrite Hp. simpl. exists (f p). split; [reflexivity|].
    unfold isTooltip in *. now rewrite Hopts.
Qed.

Lemma wf_newPopup (st : MapState) (opts : PopupOptions) :
  closeOnClick opts = true ->
  wellFormed st -> wellFormed (snd (newPopup opts st)).
Proof.
  intros Hopts [H1 H2 H3 H4 H5 H6]. constructor; simpl; try assumption.
  - intros j Hj. rewrite lookup_insert_is_Some in Hj.
    destruct Hj as [<-|[_ Hj]]; [lia | apply H2 in Hj; lia].
  - intros j p Hj Htip. rewrite lookup_insert in Hj.
    destruct (decide (nextPopup st = j)) as [Heq|Hne]; [|now apply (H3 j p)].
    injection Hj as <-. unfold isTooltip in Htip. simpl in Htip.
    rewrite Hopts in Htip. now rewrite andb_false_r in Htip.
  - intros j Hj. destruct (H4 j Hj) as (p & Hp & Htip).
    exists p. split; [|assumption].
    rewrite lookup_insert_ne; [assumption|].
    assert (j < nextPopup st)%nat by (apply H2; eauto). lia.
Qed.

Lemma wf_onLoad (st : MapState) :
  loaded st = false -> wellFormed st -> wellFormed (onLoad eng st).
Proof.
  intros Hunloaded [H1 H2 H3 H4 H5 H6]. specialize (H6 Hunloaded).
  unfold onLoad. destruct (sourceHasSetData eng); constructor; simpl;
    try assumption; try (intros; eauto; fail).
  all: try (intros j Hj; rewrite lookup_insert_is_Some in Hj;
            destruct Hj as [<-|[_ Hj]]; [lia | apply H2 in Hj; lia]).
  all: try (intros j p Hj Htip; rewrite lookup_insert in Hj;
            destruct (decide (nextPopup st = j)) as [->|Hne]; [reflexivity|];
            specialize (H3 j p Hj Htip); congruence).
  all: try (intros j Hj; injection Hj as <-;
            eexists; split; [apply lookup_insert_eq | reflexivity]).
  all: try discriminate.
Qed.

Lemma wf_onEnterPoint (st : MapState) (features : option (list Feature)) :
  wellFormed st -> wellFormed (onEnterPoint features st).
Proof.
  intros Hwf. unfold onEnterPoint.
  destruct features as [[|feature rest]|]; try assumption.
  destruct (hoverPopup st) as [popup|]; [|assumption].
  unfold addTo. apply wf_setAttached.
  - apply put_on_nodup. simpl. apply Hwf.
  - unfold setHTML. apply wf_alter; [reflexivity|].
    unfold setLngLat. now apply wf_alter.
Qed.

Lemma wf_onLeavePoint (st : MapState) :
  wellFormed st -> wellFormed (onLeavePoint st).
Proof.
  intros Hwf. unfold onLeavePoint.
  destruct (hoverPopup st) as [popup|]; [|assumption].
  unfold removePopup. apply wf_setAttached; [|assumption].
  apply without_nodup, Hwf.
Qed.

Lemma wf_onClickPoint (st : MapState) (features : option (list Feature)) :
  wellFormed st -> wellFormed (onClickPoint features st).
Proof.
  intros Hwf. unfold onClickPoint.
  destruct features as [[|feature rest]|]; try assumption.
  pose proof (wf_newPopup st defaultPopupOptions eq_refl Hwf) as Hnew.
  destruct (newPopup defaultPopupOptions st) as [popup st1] eqn:Hst1.
  simpl in Hnew.
  unfold addTo. apply wf_setAttached.
  - apply put_on_nodup. simpl. apply Hnew.
  - unfold setHTML. apply wf_alter; [reflexivity|].
    unfold setLngLat. now apply wf_alter.
Qed.

Lemma wf_onClickCluster (st : MapState) (features : option (list Feature)) :
  wellFormed st -> wellFormed (onClickCluster eng features st).
Proof.
  intros Hwf. unfold onClickCluster.
  destruct features as [[|feature rest]|]; try assumption.
  destruct (expansionZoom eng _) as [[err|] [zoom|]]; try assumption.
  now apply (wf_frame st).
Qed.

Lemma wf_handle (st : MapState) (ev : Event) :
  wellFormed st -> wellFormed (handle eng st ev).
Proof.
  intros Hwf. destruct ev as [| | | |layer features|layer|layer features|]; simpl.
  - unfold onStyleLoad. destruct (setConfigThrows eng); now apply (wf_frame st).
  - destruct (loaded st) eqn:Hloaded; [assumption | now apply wf_onLoad].
  - now apply (wf_frame st).
  - unfold onContextRestored. simpl.
    destruct (sources st !! "pharmacies"); [destruct (sourceHasReload eng)|];
      now apply (wf_frame st).
  - destruct (loaded st); simpl; [|assumption].
    destruct (String.eqb layer "unclustered-point").
    + apply (wf_frame (onEnterPoint features st)); try reflexivity.
      now apply wf_onEnterPoint.
    + destruct (String.eqb layer "clusters"); [|assumption].
      now apply (wf_frame st).
  - destruct (loaded st); simpl; [|assumption].
    destruct (String.eqb layer "unclustered-point").
    + apply (wf_frame (onLeavePoint st)); try reflexivity.
      now apply wf_onLeavePoint.
    + destruct (String.eqb layer "clusters"); [|assumption].
      now apply (wf_frame st).
  - unfold closeOnMapClick. apply wf_setAttached.
    + apply List.NoDup_filter.
      destruct (loaded st); simpl; [|apply Hwf].
      destruct (String.eqb layer "clusters"); [apply wf_onClickCluster, Hwf|].
      destruct (String.eqb layer "unclustered-point");
        [apply wf_onClickPoint, Hwf | apply Hwf].
    + destruct (loaded st); simpl; [|assumption].
      destruct (String.eqb layer "clusters"); [now apply wf_onClickCluster|].
      destruct (String.eqb layer "unclustered-point");
        [now apply wf_onClickPoint | assumption].
  - now apply (wf_frame st).
Qed.

Lemma wf_newMap : wellFormed newMap.
Proof.
  constructor; simpl.
  - constructor.
  - intros id [p Hp]. now rewrite lookup_empty in Hp.
  - intros id p Hp. now rewrite lookup_empty in Hp.
  - discriminate.
  - discriminate.
  - reflexivity.
Qed.

Lemma wf_run (events : list Event) :
  forall st : MapState, wellFormed st -> wellFormed (run eng st events).
Proof.
  induction events as [|ev events IH]; intros st Hwf; [assumption|].
  apply IH. now apply wf_handle.
Qed.

Lemma liveTooltips_are_the_hover_popup (st : MapState) (id : nat) :
  wellFormed st -> In id (liveTooltips st) -> hoverPopup st = Some id.
Proof.
  intros Hwf Hin. unfold liveTooltips in Hin.
  apply List.filter_In in Hin. destruct Hin as [_ Htip].
  destruct (popups st !! id) as [p|] eqn:Hp; [|discriminate].
  exact (wf_tooltip st Hwf id p Hp Htip).
Qed.

Lemma at_most_one_live (st : MapState) :
  wellFormed st -> (length (liveTooltips st) <= 1)%nat.
Proof.
  intros Hwf.
  assert (Hnodup : List.NoDup (liveTooltips st))
    by (apply List.NoDup_filter, Hwf).
  destruct (liveTooltips st) as [|a [|b rest]] eqn:Hlive; simpl; try lia.
  exfalso.
  assert (Ha : hoverPopup st = Some a).
  { apply liveTooltips_are_the_hover_popup; [assumption|].
    rewrite Hlive. now left. }
  assert (Hb : hoverPopup st = Some b).
  { apply liveTooltips_are_the_hover_popup; [assumption|].
    rewrite Hlive. right. now left. }
  assert (a = b) by congruence. subst b.
  inversion Hnodup as [|? ? Hnotin _]; subst. apply Hnotin. now left.
Qed.

(** After the pointer has entered a point, the shared popup is the one
    tooltip on the map and carries that point's anchor and content. *)
Lemma entered_point_has_the_tooltip (st : MapState) (feature : Feature)
    (rest : list Feature) :
  wellFormed st -> loaded st = true ->
  let st' := handle eng st (MouseEnter "unclustered-point" (Some (feature :: rest))) in
  exists (id : nat) (p : Popup),
    liveTooltips st' = [id]
    /\ popups st' !! id = Some p
    /\ lngLat p = Some (geometry feature)
    /\ html p = Some (hoverContent (properties feature)).
Proof.
  intros Hwf Hloaded st'.
  assert (Hwf' : wellFormed st') by now apply wf_handle.
  destruct (wf_loaded st Hwf Hloaded) as [id Hid].
  destruct (wf_hover st Hwf id Hid) as (p & Hp & Htip).
  set (p' := {| popupOptions := popupOptions p;
                lngLat := Some (geometry feature);
                html := Some (hoverContent (properties feature)) |}).
  assert (Hp' : popups st' !! id = Some p').
  { unfold st'. simpl. rewrite Hloaded. simpl.
    unfold onEnterPoint. rewrite Hid. simpl.
    rewrite !lookup_alter_eq, Hp. reflexivity. }
  assert (Hatt : In id (liveTooltips st')).
  { unfold liveTooltips. apply List.filter_In. split.
    - unfold st'. simpl. rewrite Hloaded. simpl.
      unfold onEnterPoint. rewrite Hid. simpl.
      apply List.in_or_app. right. now left.
    - rewrite Hp'. exact Htip. }
  exists id, p'. repeat split; try assumption; try reflexivity.
  pose proof (at_most_one_live st' Hwf') as Hlen.
  destruct (liveTooltips st') as [|a [|b l]]; simpl in Hatt, Hlen.
  - contradiction.
  - destruct Hatt as [->|[]]. reflexivity.
  - lia.
Qed.

End Tooltip.

(** C4. However the pointer moves and whatever is clicked, at most one
    hover tooltip is on the map; and when the pointer enters point A and
    then point B with no leave in between, exactly one tooltip is on the
    map, anchored at B and showing B's content. *)
Theorem at_most_one_hover_tooltip (eng : Engine) (events : list Event) :
  (length (liveTooltips (run eng newMap events)) <= 1)%nat
  /\ forall (a b : Feature) (restA restB : list Feature),
      loaded (run eng newMap events) = true ->
      let st := run eng newMap
                  (events ++ [ MouseEnter "unclustered-point" (Some (a :: restA));
                               MouseEnter "unclustered-point" (Some (b :: restB)) ]) in
      exists (id : nat) (p : Popup),
        liveTooltips st = [id]
        /\ popups st !! id = Some p
        /\ lngLat p = Some (geometry b)
        /\ html p = Some (hoverContent (properties b)).
Proof.
  pose proof (wf_run eng events newMap (wf_newMap)) as Hwf.
  split; [now apply at_most_one_live|].
  intros a b restA restB Hloaded st.
  unfold st, run. rewrite List.fold_left_app. fold (run eng newMap events).
  set (st0 := run eng newMap events) in *.
  simpl fold_left.
  set (st1 := handle eng st0 (MouseEnter "unclustered-point" (Some (a :: restA)))).
  assert (Hwf1 : wellFormed st1) by now apply wf_handle.
  assert (Hloaded1 : loaded st1 = true).
  { unfold st1. simpl. rewrite Hloaded. simpl.
    unfold onEnterPoint. destruct (hoverPopup st0); exact Hloaded. }
  exact (entered_point_has_the_tooltip eng st1 b restB Hwf1 Hloaded1).
Qed.

Lemma one_tooltip_witness :
  loaded (run sampleEngine newMap [Load]) = true
  /\ exists (id : nat) (p : Popup),
       liveTooltips
         (run sampleEngine newMap
            [ Load; MouseEnter "unclustered-point" (Some [pharmacyA]);
              MouseEnter "unclustered-point" (Some [pharmacyB]) ]) = [id]
       /\ popups
            (run sampleEngine newMap
               [ Load; MouseEnter "unclustered-point" (Some [pharmacyA]);
                 MouseEnter "unclustered-point" (Some [pharmacyB]) ]) !! id = Some p
       /\ lngLat p = Some (geometry pharmacyB).
Proof.
  assert (Hloaded : loaded (run sampleEngine newMap [Load]) = true) by reflexivity.
  split; [exact Hloaded|].
  destruct (at_most_one_hover_tooltip sampleEngine [Load]) as [_ Hab].
  destruct (Hab pharmacyA pharmacyB [] [] Hloaded) as (id & p & Hlive & Hp & Hll & _).
  exists id, p. repeat split; assumption.
Defined.

(** * Further properties of the code *)

(** ** Style *)

Section StyleOrder.

Lemma clusterRadius_value (n : Z) :
  radiusOf (clusterRadiusPx n)
  = Some (if n <? 100 then 20 else if n <? 750 then 30 else 40)%Q.
Proof.
  rewrite clusterRadius_step, step_two.
  now destruct (n <? 100), (n <? 750).
Qed.

Lemma pointRadius_value (zoom : Q) :
  exists r : Q,
    radiusOf (pointRadius zoom) = Some r
    /\ ((zoom <= 10 /\ r == 4)
        \/ (15 <= zoom /\ r == 8)
        \/ (10 < zoom < 15 /\ r == 4 + (zoom - 10) * (4 # 5)))%Q.
Proof.
  rewrite pointRadius_cases. simpl radiusOf. eexists. split; [reflexivity|].
  destruct (Qle_bool zoom 10) eqn:H10.
  - left. apply Qle_bool_iff in H10. split; [assumption | reflexivity].
  - assert (Hlo : (10 < zoom)%Q).
    { apply Qnot_le_lt. intros H. apply Qle_bool_iff in H. congruence. }
    destruct (Qle_bool 15 zoom) eqn:H15.
    + right. left. apply Qle_bool_iff in H15. split; [assumption | reflexivity].
    + right. right.
      assert (Hhi : (zoom < 15)%Q).
      { apply Qnot_le_lt. intros H. apply Qle_bool_iff in H. congruence. }
      split; [split; assumption|]. unfold Expr.lerp. field.
Qed.

End StyleOrder.

(** X1. A cluster with more points is never drawn smaller: the radius of
    the cluster circle is defined for every point count and does not
    decrease as the count grows. *)
Theorem cluster_radius_monotone (m n : Z) :
  m <= n ->
  exists rm rn : Q,
    radiusOf (clusterRadiusPx m) = Some rm
    /\ radiusOf (clusterRadiusPx n) = Some rn
    /\ (rm <= rn)%Q.
Proof.
  intros Hle. rewrite !clusterRadius_value. do 2 eexists.
  split; [reflexivity|]. split; [reflexivity|].
  destruct (Z.ltb_spec m 100), (Z.ltb_spec m 750),
    (Z.ltb_spec n 100), (Z.ltb_spec n 750); try lia; discriminate.
Qed.

Lemma cluster_radius_monotone_witness :
  99 <= 100
  /\ exists rm rn : Q,
       radiusOf (clusterRadiusPx 99) = Some rm
       /\ radiusOf (clusterRadiusPx 100) = Some rn
       /\ (rm <= rn)%Q.
Proof.
  assert (H : 99 <= 100) by lia.
  split; [exact H | exact (cluster_radius_monotone 99 100 H)].
Defined.

(** X2. The radius of a single point is defined at every zoom, lies between
    4 and 8 pixels, and does not decrease as the zoom grows. *)
Theorem point_radius_monotone_and_bounded (z1 z2 : Q) :
  (z1 <= z2)%Q ->
  exists r1 r2 : Q,
    radiusOf (pointRadius z1) = Some r1
    /\ radiusOf (pointRadius z2) = Some r2
    /\ (4 <= r1)%Q /\ (r1 <= r2)%Q /\ (r2 <= 8)%Q.
Proof.
  intros Hle.
  destruct (pointRadius_value z1) as (r1 & Hr1 & Hcase1).
  destruct (pointRadius_value z2) as (r2 & Hr2 & Hcase2).
  exists r1, r2. split; [assumption|]. split; [assumption|].
  destruct Hcase1 as [[Ha Ea]|[[Ha Ea]|[[Ha Ha'] Ea]]];
    destruct Hcase2 as [[Hb Eb]|[[Hb Eb]|[[Hb Hb'] Eb]]];
    rewrite Ea, Eb; repeat split; lra.
Qed.

Lemma point_radius_monotone_witness :
  (11 <= 14)%Q
  /\ exists r1 r2 : Q,
       radiusOf (pointRadius 11) = Some r1
       /\ radiusOf (pointRadius 14) = Some r2
       /\ (4 <= r1)%Q /\ (r1 <= r2)%Q /\ (r2 <= 8)%Q.
Proof.
  assert (H : (11 <= 14)%Q) by discriminate.
  split; [exact H | exact (point_radius_monotone_and_bounded 11 14 H)].
Defined.

(** ** Content *)

(** X3. Whatever the properties of a record, neither line of the tooltip
    or popup is empty: a name and an address are always shown. *)
Theorem popup_lines_never_empty (props : gmap string Js.value) :
  fst (renderedText props) <> "" /\ snd (renderedText props) <> "".
Proof.
  unfold renderedText. simpl. rewrite popupName_text, popupAddress_text.
  split.
  - unfold FallbackSpec.nameText, FallbackSpec.present.
    destruct (Js.truthy (Js.get props "name")) eqn:Hname;
      [now apply toString_truthy | discriminate].
  - unfold FallbackSpec.addressText, FallbackSpec.present, FallbackSpec.presentParts.
    change FallbackSpec.present with Js.truthy.
    destruct (Js.truthy (Js.get props "full_address")) eqn:Hfull;
      [now apply toString_truthy|].
    pose proof (filter_truthy
      [Js.get props "address"; Js.get props "city"; Js.get props "state"]) as Hall.
    set (parts := List.filter Js.truthy _) in *.
    destruct parts as [|v rest]; [discriminate|].
    change (FallbackSpec.joined (List.map Js.toString (v :: rest)) <> "").
    apply joined_nonempty; [discriminate|].
    apply List.Forall_map. revert Hall. apply List.Forall_impl.
    intros a. apply toString_truthy.
Qed.

(** ** Layers *)

Lemma unclustered_visible_from_10 (zoom : Q) :
  visibleAt unclusteredPointLayer zoom = Qle_bool 10 zoom.
Proof. reflexivity. Qed.

(** X4. The layer of cluster circles draws at every zoom whatever its
    filter lets through. Below zoom 10 the layer of single points draws
    nothing, so a feature that is not a cluster is drawn by neither circle
    layer there; from zoom 10 on every feature is drawn by exactly one of
    the two circle layers. *)
Theorem layers_and_zoom (zoom : Q) (f : Feature) :
  drawnBy clustersLayer zoom f = passesFilter clustersLayer f
  /\ ((zoom < 10)%Q ->
      drawnBy unclusteredPointLayer zoom f = false
      /\ (properties f !! "point_count" = None ->
          drawnBy clustersLayer zoom f = false))
  /\ ((10 <= zoom)%Q ->
      xorb (drawnBy clustersLayer zoom f) (drawnBy unclusteredPointLayer zoom f) = true).
Proof.
  split; [reflexivity|]. split.
  - intros Hlow. split.
    + unfold drawnBy. rewrite unclustered_visible_from_10.
      destruct (Qle_bool 10 zoom) eqn:Hle; [|reflexivity].
      apply Qle_bool_iff in Hle. exfalso. now apply (Qlt_not_le zoom 10).
    + intros Hnone. unfold drawnBy, passesFilter. simpl. now rewrite Hnone.
  - intros Hhigh. unfold drawnBy. rewrite unclustered_visible_from_10.
    apply Qle_bool_iff in Hhigh. rewrite Hhigh. simpl.
    rewrite filters_complementary.
    now destruct (passesFilter unclusteredPointLayer f).
Qed.

Lemma layers_and_zoom_witness :
  (4 < 10)%Q
  /\ drawnBy unclusteredPointLayer 4 pharmacyA = false
  /\ drawnBy clustersLayer 4 pharmacyA = false.
Proof.
  assert (H : (4 < 10)%Q) by reflexivity.
  split; [exact H|].
  destruct (layers_and_zoom 4 pharmacyA) as (_ & Hlow & _).
  destruct (Hlow H) as [Hpoint Hcluster].
  split; [exact Hpoint|].
  apply Hcluster. vm_compute. reflexivity.
Defined.

(** X5. From zoom level 13 on the source hands on one feature per input
    point, and every point whose own properties carry no [point_count] key
    is drawn by the layer of single points and not as a cluster. *)
Theorem every_point_drawn_above_max_zoom
    (screenDistance : Z -> LngLat -> LngLat -> Q)
    (points : list PointRecord) (zoom : Z) :
  clusterMaxZoom pharmaciesSource < zoom ->
  Forall (fun p => pointProps p !! "point_count" = None) points ->
  length (sourceFeatures pharmaciesSource screenDistance points zoom) = length points
  /\ Forall (fun f => drawnBy unclusteredPointLayer (inject_Z zoom) f = true
                      /\ drawnBy clustersLayer (inject_Z zoom) f = false)
       (sourceFeatures pharmaciesSource screenDistance points zoom).
Proof.
  intros Hzoom Hplain. simpl clusterMaxZoom in Hzoom.
  assert (Hfeatures : sourceFeatures pharmaciesSource screenDistance points zoom
                      = List.map pointFeature points).
  { unfold sourceFeatures, sourceOutput, clustersAt. simpl cluster.
    simpl clusterMaxZoom.
    destruct (Z.leb_spec zoom 12) as [Hle|_]; [lia | reflexivity]. }
  rewrite Hfeatures. split; [apply List.length_map|].
  apply List.Forall_map. revert Hplain. apply List.Forall_impl.
  intros p Hnone.
  assert (Hvisible : visibleAt unclusteredPointLayer (inject_Z zoom) = true).
  { rewrite unclustered_visible_from_10. change 10%Q with (inject_Z 10).
    rewrite Qle_bool_inject. apply Z.leb_le. lia. }
  pose proof (point_on_unclustered_layer p Hnone) as Hpoint.
  unfold drawnBy. rewrite Hvisible, Hpoint. split; [reflexivity|].
  rewrite filters_complementary, Hpoint. reflexivity.
Qed.

Lemma every_point_drawn_witness :
  clusterMaxZoom pharmaciesSource < 13
  /\ length (sourceFeatures pharmaciesSource flatDistance samplePoints 13) = 3%nat.
Proof.
  assert (H : clusterMaxZoom pharmaciesSource < 13) by (simpl; lia).
  split; [exact H|].
  refine (proj1 (every_point_drawn_above_max_zoom flatDistance samplePoints 13 H _)).
  repeat constructor.
Defined.

(** ** Tooltip and popups over the events *)

Section Popups.

Variable eng : Engine.

Lemma in_without (id j : nat) (ids : list nat) :
  In j (without id ids) <-> In j ids /\ j <> id.
Proof.
  unfold without. rewrite List.filter_In.
  destruct (Nat.eqb_spec j id); simpl; intuition congruence.
Qed.

Lemma no_tooltip_without_hover_popup (st : MapState) :
  wellFormed st -> (forall id, In id (liveTooltips st) -> hoverPopup st <> Some id) ->
  liveTooltips st = [].
Proof.
  intros Hwf Hnone.
  destruct (liveTooltips st) as [|id rest] eqn:Hlive; [reflexivity|].
  exfalso. apply (Hnone id); [now left|].
  apply liveTooltips_are_the_hover_popup; [assumption|].
  rewrite Hlive. now left.
Qed.

Lemma left_point_has_no_tooltip (st : MapState) :
  wellFormed st ->
  liveTooltips (handle eng st (MouseLeave "unclustered-point")) = [].
Proof.
  intros Hwf.
  assert (Hwf' : wellFormed (handle eng st (MouseLeave "unclustered-point")))
    by now apply wf_handle.
  apply no_tooltip_without_hover_popup; [assumption|].
  intros id Hin Hhover.
  unfold liveTooltips in Hin. apply List.filter_In in Hin. destruct Hin as [Hin _].
  revert Hin Hhover. simpl. destruct (loaded st) eqn:Hloaded; simpl.
  - unfold onLeavePoint. destruct (hoverPopup st) as [h|] eqn:Hh; simpl.
    + rewrite Hh. intros Hin Heq. injection Heq as ->.
      now apply without_absent in Hin.
    + rewrite Hh. discriminate.
  - intros _. rewrite (wf_unloaded st Hwf Hloaded). discriminate.
Qed.

End Popups.

(** X6. When the pointer leaves a single point, no hover tooltip is left on
    the map, whatever happened before. *)
Theorem leaving_a_point_closes_the_tooltip (eng : Engine) (events : list Event) :
  liveTooltips (run eng newMap (events ++ [MouseLeave "unclustered-point"])) = [].
Proof.
  unfold run. rewrite List.fold_left_app.
  exact (left_point_has_no_tooltip eng _ (wf_run eng events newMap wf_newMap)).
Qed.

(** X7. Moving the pointer onto or off a layer never takes another popup
    off the map nor puts one on: a popup opened by a click stays through
    every hover and leave. *)
Theorem hover_leaves_other_popups_alone
    (eng : Engine) (st : MapState) (id : nat) (layer : string)
    (features : option (list Feature)) :
  hoverPopup st <> Some id ->
  (In id (attached (handle eng st (MouseEnter layer features))) <-> In id (attached st))
  /\ (In id (attached (handle eng st (MouseLeave layer))) <-> In id (attached st)).
Proof.
  intros Hother. split; simpl; destruct (loaded st); simpl; try reflexivity.
  - destruct (String.eqb layer "unclustered-point"); simpl;
      [|destruct (String.eqb layer "clusters"); reflexivity].
    unfold onEnterPoint.
    destruct features as [[|feature rest]|]; try reflexivity.
    destruct (hoverPopup st) as [h|]; [|reflexivity]. simpl.
    rewrite List.in_app_iff, in_without. simpl.
    split; [intros [[Hin _]|[->|[]]]; [assumption | congruence]|].
    intros Hin. left. split; [assumption | congruence].
  - destruct (String.eqb layer "unclustered-point"); simpl;
      [|destruct (String.eqb layer "clusters"); reflexivity].
    unfold onLeavePoint. destruct (hoverPopup st) as [h|]; [|reflexivity]. simpl.
    rewrite in_without. split; [tauto|]. intros Hin. split; [assumption | congruence].
Qed.

Lemma hover_leaves_other_popups_witness :
  let st := run sampleEngine newMap [Load; Click "unclustered-point" (Some [pharmacyA])] in
  hoverPopup st <> Some 1%nat
  /\ In 1%nat (attached (handle sampleEngine st (MouseLeave "unclustered-point"))).
Proof.
  assert (H : hoverPopup (run sampleEngine newMap
                [Load; Click "unclustered-point" (Some [pharmacyA])]) <> Some 1%nat)
    by (vm_compute; discriminate).
  split; [exact H|].
  apply (hover_leaves_other_popups_alone sampleEngine _ 1%nat
           "unclustered-point" None H).
  vm_compute. now left.
Defined.

Section ClickPopup.

Variable eng : Engine.

Lemma filter_through_click (tip tip' keep : nat -> bool) (id : nat) (ids : list nat) :
  (forall x, x <> id -> tip' x = tip x) ->
  tip id = false ->
  (forall x, tip x = true -> keep x = true) ->
  List.filter tip' (List.filter keep (without id ids)) = List.filter tip ids.
Proof.
  intros Hsame Hnew Hkeep. induction ids as [|x ids IH]; [reflexivity|].
  unfold without in *. simpl.
  destruct (Nat.eqb_spec x id) as [->|Hne]; simpl.
  - now rewrite Hnew.
  - destruct (tip x) eqn:Htip.
    + rewrite (Hkeep x Htip). simpl. rewrite (Hsame x Hne), Htip. now rewrite IH.
    + destruct (keep x); simpl; [rewrite (Hsame x Hne), Htip|]; exact IH.
Qed.

Lemma clicked_point_state (st : MapState) (f : Feature) (rest : list Feature) :
  loaded st = true ->
  let st' := handle eng st (Click "unclustered-point" (Some (f :: rest))) in
  popups st'
  = alter (fun p => {| popupOptions := popupOptions p; lngLat := lngLat p;
                       html := Some (clickContent (properties f)) |})
      (nextPopup st)
      (alter (fun p => {| popupOptions := popupOptions p;
                          lngLat := Some (geometry f); html := html p |})
         (nextPopup st)
         (<[nextPopup st := {| popupOptions := defaultPopupOptions;
                               lngLat := None; html := None |}]> (popups st)))
  /\ attached st'
     = List.filter
         (fun id => negb (existsb (Nat.eqb id) (attached st) && closesOnClick st id))
         (without (nextPopup st) (attached st) ++ [nextPopup st])
  /\ nextPopup st' = S (nextPopup st)
  /\ hoverPopup st' = hoverPopup st.
Proof.
  intros Hloaded. simpl. rewrite Hloaded. simpl. repeat split; reflexivity.
Qed.

End ClickPopup.

(** X8. A click on a single point makes a new popup object of its own,
    anchored at the point and filled with the point's content, and puts it
    on the map. The popups made before keep their anchor and content, and
    the hover tooltip is on the map after the click exactly if it was
    before. *)
Theorem click_opens_an_independent_popup
    (eng : Engine) (events : list Event) (f : Feature) (rest : list Feature) :
  let st := run eng newMap events in
  let st' := handle eng st (Click "unclustered-point" (Some (f :: rest))) in
  loaded st = true ->
  popups st !! nextPopup st = None
  /\ popups st' !! nextPopup st
     = Some {| popupOptions := defaultPopupOptions;
               lngLat := Some (geometry f);
               html := Some (clickContent (properties f)) |}
  /\ In (nextPopup st) (attached st')
  /\ (forall j : nat, j <> nextPopup st -> popups st' !! j = popups st !! j)
  /\ liveTooltips st' = liveTooltips st.
Proof.
  intros st st' Hloaded.
  assert (Hwf : wellFormed st) by apply (wf_run eng events newMap wf_newMap).
  destruct (clicked_point_state eng st f rest Hloaded) as (Hpopups & Hatt & _ & _).
  fold st' in Hpopups, Hatt. clearbody st'. clearbody st.
  assert (Hfresh : popups st !! nextPopup st = None).
  { destruct (popups st !! nextPopup st) as [p|] eqn:Hp; [|reflexivity].
    assert (nextPopup st < nextPopup st)%nat by (apply (wf_fresh st Hwf); eauto).
    lia. }
  assert (Hother : forall j, j <> nextPopup st -> popups st' !! j = popups st !! j).
  { intros j Hj. rewrite Hpopups.
    rewrite !lookup_alter_ne by congruence. now rewrite lookup_insert_ne by congruence. }
  split; [exact Hfresh|]. split; [|split; [|split; [exact Hother|]]].
  - rewrite Hpopups, !lookup_alter_eq, lookup_insert_eq. reflexivity.
  - rewrite Hatt. apply List.filter_In. split.
    + apply List.in_or_app. right. now left.
    + unfold closesOnClick. rewrite Hfresh. now rewrite andb_false_r.
  - unfold liveTooltips. rewrite Hatt, List.filter_app, List.filter_app.
    assert (Hnew : match popups st' !! nextPopup st with
                   | Some p => isTooltip p | None => false end = false).
    { rewrite Hpopups, !lookup_alter_eq, lookup_insert_eq. reflexivity. }
    assert (Hlast :
      List.filter (fun id => match popups st' !! id with
                             | Some p => isTooltip p | None => false end)
        (List.filter
           (fun id => negb (existsb (Nat.eqb id) (attached st) && closesOnClick st id))
           [nextPopup st]) = []).
    { cbn [List.filter]. destruct (negb _); cbn [List.filter];
        [now rewrite Hnew | reflexivity]. }
    rewrite Hlast, List.app_nil_r.
    apply filter_through_click.
    + intros x Hx. now rewrite (Hother x Hx).
    + now rewrite Hfresh.
    + intros x Htip. unfold closesOnClick.
      destruct (popups st !! x) as [p|]; [|discriminate].
      unfold isTooltip in Htip. apply andb_true_iff in Htip.
      destruct Htip as [_ Hclose]. apply negb_true_iff in Hclose.
      rewrite Hclose. now rewrite andb_false_r.
Qed.

Lemma click_opens_popup_witness :
  loaded (run sampleEngine newMap [Load]) = true
  /\ In 1%nat (attached (handle sampleEngine (run sampleEngine newMap [Load])
                          (Click "unclustered-point" (Some [pharmacyA])))).
Proof.
  assert (H : loaded (run sampleEngine newMap [Load]) = true) by reflexivity.
  split; [exact H|].
  exact (proj1 (proj2 (proj2
    (click_opens_an_independent_popup sampleEngine [Load] pharmacyA [] H)))).
Defined.

(** ** What the pointer handlers leave alone *)

Section Frames.

Variable eng : Engine.

Lemma pointer_event_only_eases (st : MapState) (layer : string)
    (features : option (list Feature)) :
  onlyEases st (handle eng st (MouseEnter layer features))
  /\ onlyEases st (handle eng st (MouseLeave layer))
  /\ onlyEases st (handle eng st (Click layer features)).
Proof.
  unfold onlyEases. simpl.
  unfold onEnterPoint, onLeavePoint, onClickCluster, onClickPoint, newPopup.
  repeat split; repeat case_match; simpl;
    try reflexivity; try (left; reflexivity); right; eexists; reflexivity.
Qed.

Lemma other_events_keep_layers (st : MapState) (ev : Event) :
  ev <> Load ->
  sources (handle eng st ev) = sources st /\ layers (handle eng st ev) = layers st.
Proof.
  intros Hev. destruct ev as [| | | |layer features|layer|layer features|];
    try congruence.
  - unfold handle, onStyleLoad. now destruct (setConfigThrows eng).
  - now split.
  - unfold handle, onContextRestored. simpl.
    destruct (sources st !! "pharmacies"); [destruct (sourceHasReload eng)|];
      now split.
  - destruct (pointer_event_only_eases st layer features) as ((? & ? & _) & _).
    now split.
  - destruct (pointer_event_only_eases st layer None) as (_ & (? & ? & _) & _).
    now split.
  - destruct (pointer_event_only_eases st layer features) as (_ & _ & (? & ? & _)).
    now split.
  - now split.
Qed.

Lemma untouched_step (st : MapState) (ev : Event) :
  ev <> Load -> untouched st -> untouched (handle eng st ev).
Proof.
  intros Hev (Hl & Hp & Ha & Hc & Hy & Hs & Hcur & Hcam & He & Hh & Hn).
  unfold untouched.
  destruct ev as [| | | |layer features|layer|layer features|]; try congruence;
    simpl; rewrite ?Hl; simpl.
  - assert (Hcalls : Forall
        (fun c => c = SetConfigPropertyCall "basemap" "lightPreset" "dusk")
        (calls st ++ [SetConfigPropertyCall "basemap" "lightPreset" "dusk"]))
      by (apply List.Forall_app; split; [exact Hc | now constructor]).
    unfold onStyleLoad. destruct (setConfigThrows eng); simpl; tauto.
  - tauto.
  - unfold onContextRestored. simpl. rewrite Hs, lookup_empty. simpl. tauto.
  - tauto.
  - tauto.
  - rewrite Ha. simpl. tauto.
  - tauto.
Qed.

Lemma pointer_event_on_untouched (st : MapState) (layer : string)
    (features : option (list Feature)) :
  untouched st ->
  handle eng st (MouseEnter layer features) = st
  /\ handle eng st (MouseLeave layer) = st
  /\ handle eng st (Click layer features) = st.
Proof.
  intros (Hl & _ & Ha & _). simpl. rewrite Hl. simpl.
  repeat split; try reflexivity.
  unfold closeOnMapClick, setAttached. rewrite Ha. simpl.
  rewrite <- Ha. now destruct st.
Qed.

End Frames.

(** X9. Until the map has fired ['load'], nothing happens on it but
    console output and the call that sets the light preset when the style
    has loaded: no source, layer or popup exists, cursor and camera are as
    they were made, and a pointer event leaves the map exactly as it is,
    console and calls included. *)
Theorem nothing_happens_before_load (eng : Engine) (events : list Event) :
  Forall (fun ev => ev <> Load) events ->
  let st := run eng newMap events in
  untouched st
  /\ forall (layer : string) (features : option (list Feature)),
       handle eng st (MouseEnter layer features) = st
       /\ handle eng st (MouseLeave layer) = st
       /\ handle eng st (Click layer features) = st.
Proof.
  intros Hevents. simpl.
  assert (Hrun : untouched (run eng newMap events)).
  { assert (Hstart : untouched newMap)
      by (unfold untouched; simpl; repeat split; constructor).
    revert Hstart. generalize newMap as st.
    induction Hevents as [|ev events Hev _ IH]; intros st Hst; [exact Hst|].
    apply IH. now apply untouched_step. }
  split; [exact Hrun|].
  intros layer features. now apply pointer_event_on_untouched.
Qed.

Lemma nothing_happens_before_load_witness :
  Forall (fun ev => ev <> Load)
    [ StyleLoad; MouseEnter "unclustered-point" (Some [pharmacyA]);
      Click "unclustered-point" (Some [pharmacyA]);
      Click "clusters" (Some [sampleCluster]) ]
  /\ untouched
       (run sampleEngine newMap
          [ StyleLoad; MouseEnter "unclustered-point" (Some [pharmacyA]);
            Click "unclustered-point" (Some [pharmacyA]);
            Click "clusters" (Some [sampleCluster]) ])
  /\ calls
       (run sampleEngine newMap
          [ StyleLoad; MouseEnter "unclustered-point" (Some [pharmacyA]);
            Click "unclustered-point" (Some [pharmacyA]);
            Click "clusters" (Some [sampleCluster]) ])
     = [SetConfigPropertyCall "basemap" "lightPreset" "dusk"].
Proof.
  assert (H : Forall (fun ev => ev <> Load)
                [ StyleLoad; MouseEnter "unclustered-point" (Some [pharmacyA]);
                  Click "unclustered-point" (Some [pharmacyA]);
                  Click "clusters" (Some [sampleCluster]) ])
    by (repeat constructor; discriminate).
  split; [exact H|].
  split; [exact (proj1 (nothing_happens_before_load sampleEngine _ H)) | reflexivity].
Defined.

(** X10. A pointer event never adds or removes a source or a layer and
    never writes to the console; the one call it can make on the map is a
    single [easeTo]. *)
Theorem pointer_events_only_ease (eng : Engine) (st : MapState) (layer : string)
    (features : option (list Feature)) :
  onlyEases st (handle eng st (MouseEnter layer features))
  /\ onlyEases st (handle eng st (MouseLeave layer))
  /\ onlyEases st (handle eng st (Click layer features)).
Proof.
  unfold onlyEases. simpl.
  unfold onEnterPoint, onLeavePoint, onClickCluster, onClickPoint, newPopup.
  repeat split; repeat case_match; simpl;
    try reflexivity; try (left; reflexivity); right; eexists; reflexivity.
Qed.

(** X11. An event that carries no features (none at all, or an empty
    list) opens and moves no popup, makes no call and leaves the view as it
    is, on whichever layer it arrives. *)
Theorem events_without_features_do_nothing (eng : Engine) (st : MapState)
    (layer : string) :
  samePopupsAndView st (handle eng st (MouseEnter layer None))
  /\ samePopupsAndView st (handle eng st (MouseEnter layer (Some [])))
  /\ samePopupsAndView st (handle eng st (Click layer None))
  /\ samePopupsAndView st (handle eng st (Click layer (Some []))).
Proof.
  unfold samePopupsAndView. simpl.
  repeat split; repeat case_match; simpl; auto;
    intros id Hin; apply List.filter_In in Hin; tauto.
Qed.

(** X12. Whatever events have run, every layer on the map reads from a
    source that exists on the map. *)
Theorem layers_have_their_source (eng : Engine) (events : list Event) :
  let st := run eng newMap events in
  Forall (fun l => is_Some (sources st !! layerSource l)) (layers st).
Proof.
  simpl.
  assert (Hstart : Forall (fun l => is_Some (sources newMap !! layerSource l))
                     (layers newMap)) by constructor.
  revert Hstart. generalize newMap as st.
  induction events as [|ev events IH]; intros st Hst; [exact Hst|].
  apply IH.
  assert (Hcase : ev = Load \/ ev <> Load)
    by (destruct ev; (now left) || (right; discriminate)).
  destruct Hcase as [->|Hev].
  - simpl. destruct (loaded st); [exact Hst|].
    unfold onLoad. destruct (sourceHasSetData eng); simpl;
      (apply List.Forall_app; split;
       [ revert Hst; apply List.Forall_impl; intros l Hl;
         apply lookup_insert_is_Some'; now right
       | repeat constructor; simpl; rewrite lookup_insert_eq; eauto ]).
  - destruct (other_events_keep_layers eng st ev Hev) as [Hs Hl].
    now rewrite Hs, Hl.
Qed.

(** ** The life of the [MapView] component *)

Section Lifecycle.

Variable eng : Engine.
Variable surface : Surface.

Lemma mount_with_size (w h : Z) :
  surface 0%nat = Some (w, h) -> w <> 0 -> h <> 0 ->
  mountEffect eng surface 0 unmounted
  = initializeMap eng (Some (w, h)) unmounted
  /\ effectCleanup surface 0 unmounted = RemoveMap.
Proof.
  intros Hsurface Hw Hh. unfold mountEffect, effectCleanup.
  rewrite Hsurface. simpl.
  destruct (Z.eqb_spec w 0); [contradiction|].
  destruct (Z.eqb_spec h 0); [contradiction|]. now split.
Qed.

Lemma initializeMap_no_timer (container : option (Z * Z)) (v : MapViewState) :
  pendingTimer (initializeMap eng container v) = pendingTimer v
  /\ timersSet (initializeMap eng container v) = timersSet v.
Proof.
  unfold initializeMap. destruct container, (mapCurrent v); try now split.
  destruct (constructorThrows eng); now split.
Qed.

Lemma view_with_size (w h : Z) (elapsed : nat) :
  surface 0%nat = Some (w, h) -> w <> 0 -> h <> 0 ->
  viewAfter eng surface elapsed = initializeMap eng (Some (w, h)) unmounted.
Proof.
  intros Hsurface Hw Hh. unfold viewAfter.
  rewrite (proj1 (mount_with_size w h Hsurface Hw Hh)).
  apply runLoop_idle. now rewrite (proj1 (initializeMap_no_timer _ _)).
Qed.

End Lifecycle.

(** X13. A container that has a size when the component mounts gets its
    map at once: no timer is ever set. If the map constructor throws, the
    failure is written to the console as an error, the component has no map
    and makes no further attempt. *)
Theorem sized_container_gets_its_map_at_once
    (eng : Engine) (surface : Surface) (w h : Z) (elapsed : nat) :
  surface 0%nat = Some (w, h) -> w <> 0 -> h <> 0 ->
  let v := viewAfter eng surface elapsed in
  timersSet v = 0%nat
  /\ pendingTimer v = None
  /\ (constructorThrows eng = false ->
      mapCurrent v = Some newMap /\ viewConsole v = [])
  /\ (constructorThrows eng = true ->
      mapCurrent v = None
      /\ viewConsole v = [(ErrorLine, "Failed to initialize map:")]).
Proof.
  intros Hsurface Hw Hh. simpl.
  rewrite (view_with_size eng surface w h elapsed Hsurface Hw Hh).
  unfold initializeMap. simpl.
  destruct (constructorThrows eng); simpl; repeat split; congruence.
Qed.

Lemma sized_container_witness :
  sizedSurface 0%nat = Some (800, 600)
  /\ mapCurrent (viewAfter sampleEngine sizedSurface 250) = Some newMap
  /\ mapCurrent (viewAfter throwingEngine sizedSurface 250) = None.
Proof.
  assert (H : sizedSurface 0%nat = Some (800, 600)) by reflexivity.
  split; [exact H|]. split.
  - destruct (sized_container_gets_its_map_at_once sampleEngine sizedSurface
                800 600 250 H) as (_ & _ & Hok & _); try lia.
    now apply Hok.
  - destruct (sized_container_gets_its_map_at_once throwingEngine sizedSurface
                800 600 250 H) as (_ & _ & _ & Hthrows); try lia.
    now apply Hthrows.
Defined.

(** X14. If the container ref is still null when the effect runs, the
    effect returns at once and for good: no warning, no timer and no map,
    however long one waits and whatever the container becomes later. *)
Theorem detached_container_never_gets_a_map
    (eng : Engine) (surface : Surface) (elapsed : nat) :
  surface 0%nat = None ->
  viewAfter eng surface elapsed = unmounted
  /\ effectCleanup surface 0 unmounted = NoCleanup.
Proof.
  intros Hsurface. unfold viewAfter, mountEffect, effectCleanup.
  rewrite Hsurface. split; [|reflexivity].
  now apply runLoop_idle.
Qed.

Lemma detached_container_witness :
  detachedSurface 0%nat = None
  /\ viewAfter sampleEngine detachedSurface 1000 = unmounted.
Proof.
  assert (H : detachedSurface 0%nat = None) by reflexivity.
  split; [exact H|].
  exact (proj1 (detached_container_never_gets_a_map sampleEngine detachedSurface 1000 H)).
Defined.

(** X15. After a direct initialization the cleanup of the effect removes
    the map and leaves the component as it was before the mount, so that
    the next run of the effect starts afresh. *)
Theorem cleanup_removes_the_map
    (eng : Engine) (surface : Surface) (w h : Z) (elapsed later : nat) :
  surface 0%nat = Some (w, h) -> w <> 0 -> h <> 0 ->
  constructorThrows eng = false ->
  cleanedUpAfter eng surface elapsed = unmounted
  /\ mountEffect eng surface later (cleanedUpAfter eng surface elapsed)
     = mountEffect eng surface later unmounted.
Proof.
  intros Hsurface Hw Hh Hok.
  assert (Hclean : cleanedUpAfter eng surface elapsed = unmounted).
  { unfold cleanedUpAfter.
    rewrite (view_with_size eng surface w h elapsed Hsurface Hw Hh).
    rewrite (proj2 (mount_with_size eng surface w h Hsurface Hw Hh)).
    unfold initializeMap. simpl. now rewrite Hok. }
  now rewrite Hclean.
Qed.

Lemma cleanup_removes_the_map_witness :
  sizedSurface 0%nat = Some (800, 600)
  /\ cleanedUpAfter sampleEngine sizedSurface 500 = unmounted.
Proof.
  assert (H : sizedSurface 0%nat = Some (800, 600)) by reflexivity.
  split; [exact H|].
  refine (proj1 (cleanup_removes_the_map sampleEngine sizedSurface 800 600 500 0
                   H _ _ eq_refl)); lia.
Defined.

(** X16. When the container had no size at the mount and the effect is
    cleaned up before the retry is due, the timer is cleared: the retry
    never runs and the component never gets a map, even if the container
    has its size by then. *)
Theorem cleanup_cancels_the_retry
    (eng : Engine) (surface : Surface) (w h : Z) (elapsed steps : nat) :
  surface 0%nat = Some (w, h) -> w = 0 \/ h = 0 ->
  (elapsed < retryDelay)%nat ->
  let v := runLoop eng surface (S elapsed) steps (cleanedUpAfter eng surface elapsed) in
  initialized v = false /\ pendingTimer v = None.
Proof.
  intros Hsurface Hzero Hbefore. simpl.
  assert (Hclean : pendingTimer (cleanedUpAfter eng surface elapsed) = None
                   /\ initialized (cleanedUpAfter eng surface elapsed) = false).
  { unfold cleanedUpAfter.
    rewrite (view_while_waiting eng surface w h elapsed Hsurface Hzero Hbefore).
    unfold effectCleanup. rewrite Hsurface. simpl.
    assert (Hz : (w =? 0) || (h =? 0) = true).
    { destruct Hzero; subst; simpl; [reflexivity | apply orb_true_r]. }
    rewrite Hz. now split. }
  rewrite (runLoop_idle eng surface steps (S elapsed) _ (proj1 Hclean)).
  split; apply Hclean.
Qed.

Lemma cleanup_cancels_the_retry_witness :
  earlySurface 0%nat = Some (0, 0)
  /\ initialized
       (runLoop sampleEngine earlySurface 61 1000
          (cleanedUpAfter sampleEngine earlySurface 60)) = false.
Proof.
  assert (H : earlySurface 0%nat = Some (0, 0)) by reflexivity.
  split; [exact H|].
  refine (proj1 (cleanup_cancels_the_retry sampleEngine earlySurface 0 0 60 1000
                   H (or_introl eq_refl) _)).
  unfold retryDelay. lia.
Defined.

(** X17. When the map was made by the retry, the cleanup of the effect only
    clears the timer: the map is not removed and stays in [map.current]. A
    later run of the effect then finds that map, returns at once, and
    registers no cleanup either. *)
Theorem cleanup_after_retry_keeps_the_map
    (eng : Engine) (surface : Surface) (w h : Z) (elapsed later : nat) :
  surface 0%nat = Some (w, h) -> w = 0 \/ h = 0 ->
  hasSize surface retryDelay = true ->
  constructorThrows eng = false ->
  (retryDelay <= elapsed)%nat ->
  let v := cleanedUpAfter eng surface elapsed in
  mapCurrent v = Some newMap
  /\ mountEffect eng surface later v = v
  /\ effectCleanup surface later v = NoCleanup.
Proof.
  intros Hsurface Hzero Hsized Hok Hafter. simpl.
  assert (Hclean : mapCurrent (cleanedUpAfter eng surface elapsed) = Some newMap).
  { unfold cleanedUpAfter.
    rewrite (view_after_retry eng surface w h elapsed Hsurface Hzero Hafter).
    unfold effectCleanup. rewrite Hsurface. simpl.
    assert (Hz : (w =? 0) || (h =? 0) = true).
    { destruct Hzero; subst; simpl; [reflexivity | apply orb_true_r]. }
    rewrite Hz. simpl.
    unfold retried, retryCallback, hasSize in *.
    destruct (surface retryDelay) as [[w' h']|]; [|discriminate].
    rewrite Hsized. unfold initializeMap. simpl. now rewrite Hok. }
  split; [exact Hclean|].
  unfold mountEffect, effectCleanup. rewrite Hclean.
  destruct (surface later) as [[w' h']|]; now split.
Qed.

Lemma cleanup_after_retry_witness :
  earlySurface 0%nat = Some (0, 0)
  /\ mapCurrent (cleanedUpAfter sampleEngine earlySurface 500) = Some newMap.
Proof.
  assert (H : earlySurface 0%nat = Some (0, 0)) by reflexivity.
  split; [exact H|].
  refine (proj1 (cleanup_after_retry_keeps_the_map sampleEngine earlySurface 0 0
                   500 600 H (or_introl eq_refl) eq_refl eq_refl _)).
  unfold retryDelay. lia.
Defined.

(** ** [App] with a token *)

(** X18. With a token that is not empty, [App] renders the explorer: the
    tree holds exactly one [MapView], which is given that very token, the
    message about the missing variable is not shown, and rendering mounts
    exactly one map component. *)
Theorem token_reaches_the_map_view
    (eng : Engine) (surface : Surface) (t : string) (elapsed : nat) :
  t <> "" ->
  mapViews (App (Some t)) = [t]
  /\ ~ In "Error: VITE_MAPBOX_ACCESS_TOKEN environment variable is not set."
        (textContent (App (Some t)))
  /\ renderApp eng surface (Some t) elapsed = [viewAfter eng surface elapsed].
Proof.
  intros Hne.
  assert (Happ : App (Some t) = explorerScreen t).
  { unfold App, tokenMissing. destruct (String.eqb_spec t ""); [contradiction|].
    reflexivity. }
  unfold renderApp. rewrite Happ. simpl. repeat split; try reflexivity.
  intros [H|[H|[]]]; discriminate H.
Qed.

Lemma token_reaches_the_map_view_witness :
  "pk.sample" <> "" /\ mapViews (App (Some "pk.sample")) = ["pk.sample"].
Proof.
  assert (H : "pk.sample" <> "") by discriminate.
  split; [exact H|].
  exact (proj1 (token_reaches_the_map_view sampleEngine sizedSurface "pk.sample" 0 H)).
Defined.

(** ** Cursor and cluster style *)

(** X19. Once the map is loaded, the cursor is a pointer after the pointer
    has entered the cluster layer or the layer of single points, with or
    without features under it, and the default again after it has left;
    events on other layers and clicks leave the cursor as it is. *)
Theorem cursor_follows_the_pointer
    (eng : Engine) (st : MapState) (layer : string)
    (features : option (list Feature)) :
  loaded st = true ->
  (layer = "clusters" \/ layer = "unclustered-point" ->
     cursor (handle eng st (MouseEnter layer features)) = "pointer"
     /\ cursor (handle eng st (MouseLeave layer)) = "")
  /\ (layer <> "clusters" -> layer <> "unclustered-point" ->
     cursor (handle eng st (MouseEnter layer features)) = cursor st
     /\ cursor (handle eng st (MouseLeave layer)) = cursor st)
  /\ cursor (handle eng st (Click layer features)) = cursor st.
Proof.
  intros Hloaded. simpl. rewrite Hloaded. simpl. split; [|split].
  - intros [->| ->]; simpl; now split.
  - intros Hc Hp.
    destruct (String.eqb_spec layer "unclustered-point"); [contradiction|].
    destruct (String.eqb_spec layer "clusters"); [contradiction|]. now split.
  - unfold onClickCluster, onClickPoint, newPopup.
    repeat case_match; reflexivity.
Qed.

Lemma cursor_follows_the_pointer_witness :
  loaded (run sampleEngine newMap [Load]) = true
  /\ cursor (handle sampleEngine (run sampleEngine newMap [Load])
               (MouseEnter "clusters" None)) = "pointer".
Proof.
  assert (H : loaded (run sampleEngine newMap [Load]) = true) by reflexivity.
  split; [exact H|].
  destruct (cursor_follows_the_pointer sampleEngine
              (run sampleEngine newMap [Load]) "clusters" None H) as [Hin _].
  now apply Hin; left.
Defined.

(** X20. A feature whose [point_count] is a number is drawn by the cluster
    layer, and the colour and the radius of its circle depend on that count
    alone: not on its other properties and not on the zoom. *)
Theorem cluster_style_depends_on_count_alone (f : Feature) (n : Z) (zoom : Q) :
  properties f !! "point_count" = Some (Js.Num n) ->
  passesFilter clustersLayer f = true
  /\ evalPaint clustersLayer "circle-color" (properties f) zoom = clusterColor n
  /\ evalPaint clustersLayer "circle-radius" (properties f) zoom = clusterRadiusPx n.
Proof.
  intros Hcount. split; [|split].
  - unfold passesFilter. simpl. rewrite Hcount. reflexivity.
  - rewrite clusterColor_step. unfold evalPaint. simpl. now rewrite Hcount.
  - rewrite clusterRadius_step. unfold evalPaint. simpl. now rewrite Hcount.
Qed.

Lemma cluster_style_witness :
  properties sampleCluster !! "point_count" = Some (Js.Num 2)
  /\ evalPaint clustersLayer "circle-radius" (properties sampleCluster) 7
     = clusterRadiusPx 2.
Proof.
  assert (H : properties sampleCluster !! "point_count" = Some (Js.Num 2))
    by (vm_compute; reflexivity).
  split; [exact H|].
  exact (proj2 (proj2 (cluster_style_depends_on_count_alone sampleCluster 2 7 H))).
Defined.

(** ** Popups on the map *)

Section Shown.

Variable eng : Engine.

Lemma ws_subset (st st' : MapState) :
  popups st' = popups st ->
  (forall id, In id (attached st') -> In id (attached st)) ->
  wellShown st -> wellShown st'.
Proof.
  intros Hp Hsub Hws id Hin. rewrite Hp. apply Hws. now apply Hsub.
Qed.

Lemma ws_show (st : MapState) (id : nat) (c : LngLat) (h : string) :
  is_Some (popups st !! id) -> wellShown st ->
  wellShown (addTo id (setHTML id h (setLngLat id c st))).
Proof.
  intros [p Hp] Hws j Hin. simpl in *.
  apply List.in_app_iff in Hin. destruct Hin as [Hin|[<-|[]]].
  - apply in_without in Hin. destruct Hin as [Hin Hne].
    destruct (Hws j Hin) as (q & Hq & Hll & Hh).
    exists q. rewrite !lookup_alter_ne by congruence. auto.
  - rewrite !lookup_alter_eq, Hp. simpl. eexists. split; [reflexivity|].
    simpl. split; discriminate.
Qed.

Lemma ws_insert_fresh (st : MapState) (p : Popup) :
  wellFormed st -> wellShown st ->
  forall id, In id (attached st) ->
    exists q, <[nextPopup st := p]> (popups st) !! id = Some q
              /\ lngLat q <> None /\ html q <> None.
Proof.
  intros Hwf Hws id Hin. destruct (Hws id Hin) as (q & Hq & Hrest).
  exists q. split; [|exact Hrest].
  assert (id < nextPopup st)%nat by (apply (wf_fresh st Hwf); eauto).
  rewrite lookup_insert_ne by lia. exact Hq.
Qed.

Lemma ws_handle (st : MapState) (ev : Event) :
  wellFormed st -> wellShown st -> wellShown (handle eng st ev).
Proof.
  intros Hwf Hws.
  destruct ev as [| | | |layer features|layer|layer features|]; simpl.
  - unfold onStyleLoad. destruct (setConfigThrows eng); exact Hws.
  - destruct (loaded st); [exact Hws|].
    unfold onLoad. destruct (sourceHasSetData eng); simpl;
      intros id Hin; apply (ws_insert_fresh st _ Hwf Hws id Hin).
  - exact Hws.
  - unfold onContextRestored. simpl.
    destruct (sources st !! "pharmacies"); [destruct (sourceHasReload eng)|];
      exact Hws.
  - destruct (loaded st) eqn:Hloaded; simpl; [|exact Hws].
    destruct (String.eqb layer "unclustered-point");
      [|destruct (String.eqb layer "clusters"); exact Hws].
    unfold onEnterPoint. destruct features as [[|feature rest]|]; try exact Hws.
    destruct (hoverPopup st) as [h|] eqn:Hh; [|exact Hws].
    apply (ws_show st h); [|exact Hws].
    destruct (wf_hover st Hwf h Hh) as (p & Hp & _). eauto.
  - destruct (loaded st); simpl; [|exact Hws].
    destruct (String.eqb layer "unclustered-point");
      [|destruct (String.eqb layer "clusters"); exact Hws].
    unfold onLeavePoint. destruct (hoverPopup st) as [h|]; [|exact Hws].
    apply (ws_subset st); [reflexivity | | exact Hws].
    intros id Hin. simpl in Hin. now apply in_without in Hin.
  - set (st1 := if negb (loaded st) then st else _).
    assert (Hws1 : wellShown st1).
    { unfold st1. destruct (loaded st); simpl; [|exact Hws].
      destruct (String.eqb layer "clusters").
      - unfold onClickCluster. destruct features as [[|feature rest]|]; try exact Hws.
        destruct (expansionZoom eng _) as [[err|] [zoom|]]; exact Hws.
      - destruct (String.eqb layer "unclustered-point"); [|exact Hws].
        unfold onClickPoint. destruct features as [[|feature rest]|]; try exact Hws.
        unfold newPopup.
        apply (ws_show _ (nextPopup st)).
        + simpl. rewrite lookup_insert_eq. eauto.
        + intros id Hin. simpl in *. apply (ws_insert_fresh st _ Hwf Hws id Hin). }
    apply (ws_subset st1); [reflexivity | | exact Hws1].
    intros id Hin. unfold closeOnMapClick in Hin. simpl in Hin.
    apply List.filter_In in Hin. tauto.
  - exact Hws.
Qed.

Lemma ws_run (events : list Event) :
  forall st : MapState,
    wellFormed st -> wellShown st -> wellShown (run eng st events).
Proof.
  induction events as [|ev events IH]; intros st Hwf Hws; [exact Hws|].
  apply IH; [now apply wf_handle | now apply ws_handle].
Qed.

End Shown.

(** X21. Whatever events have run, no popup is on the map twice, and every
    popup on the map is one of the popup objects made by the handlers and
    has been given its anchor and its content. *)
Theorem popups_on_the_map_are_complete (eng : Engine) (events : list Event) :
  let st := run eng newMap events in
  List.NoDup (attached st)
  /\ Forall (fun id => exists p : Popup,
                popups st !! id = Some p /\ lngLat p <> None /\ html p <> None)
       (attached st).
Proof.
  simpl. split.
  - apply (wf_nodup _ (wf_run eng events newMap wf_newMap)).
  - apply List.Forall_forall.
    apply (ws_run eng events newMap wf_newMap).
    intros id [].
Qed.
